(** * Home.jsx: feed synchronisation, mutation reconciliation and filtering

    A shallow embedding of the state logic of
    [frontend/src/pages/Home.jsx]: the component state, the six handlers
    that talk to the remote service ([fetchPosts], [handleCommentSubmit],
    [handleCommentUpdate], [handleCommentDelete], [handleReaction],
    [handleFollowPost]), the two [useEffect] hooks and the pure projections
    (the filter, [getReactionCount], [hasUserReacted]).

    Conventions of the embedding.
    - A JavaScript string is a [string]; [trim] and [toLowerCase] act on
      the ASCII range (the six ASCII white-space characters, the letters
      A-Z), other characters are left alone.
    - An identifier is a [JsVal]: [undefined], an integer number or a
      string.  [===] on identifiers is equality of [JsVal]; [String(v)] is
      [js_String].
    - A field that the source reads with [?.] or tests for truthiness is an
      [option].
    - An [async] handler is a [Prog]: either it returns without a request,
      or it issues one request of [api.js] and continues with its outcome.
      A handler runs to completion on the state it was started in. *)

From Stdlib Require Import Ascii.
From stdpp Require Import base strings gmap list pretty.

Open Scope string_scope.

(** ** JavaScript strings *)

Module JsString.

(** White space removed by [String.prototype.trim], ASCII range:
    TAB, LF, VT, FF, CR and SPACE. *)
Definition isWhiteSpace (c : ascii) : bool :=
  let n := nat_of_ascii c in
  (Nat.leb 9 n && Nat.leb n 13) || Nat.eqb n 32.

Fixpoint trimStart (s : string) : string :=
  match s with
  | EmptyString => EmptyString
  | String c r => if isWhiteSpace c then trimStart r else s
  end.

Fixpoint trimEnd (s : string) : string :=
  match s with
  | EmptyString => EmptyString
  | String c r =>
      match trimEnd r with
      | EmptyString => if isWhiteSpace c then EmptyString else String c EmptyString
      | r' => String c r'
      end
  end.

Definition trim (s : string) : string := trimEnd (trimStart s).

Definition lowerChar (c : ascii) : ascii :=
  let n := nat_of_ascii c in
  if Nat.leb 65 n && Nat.leb n 90 then ascii_of_nat (n + 32) else c.

Fixpoint toLowerCase (s : string) : string :=
  match s with
  | EmptyString => EmptyString
  | String c r => String (lowerChar c) (toLowerCase r)
  end.

Fixpoint startsWith (s q : string) : bool :=
  match q, s with
  | EmptyString, _ => true
  | String _ _, EmptyString => false
  | String b q', String a s' => Ascii.eqb a b && startsWith s' q'
  end.

(** [s.includes(q)] *)
Fixpoint includes (s q : string) : bool :=
  startsWith s q ||
  match s with
  | EmptyString => false
  | String _ r => includes r q
  end.

(** [s.split(sep)] for a one-character separator; never empty:
    the empty string splits into one empty token. *)
Fixpoint split (sep : ascii) (s : string) : list string :=
  match s with
  | EmptyString => [EmptyString]
  | String c r =>
      if Ascii.eqb c sep then EmptyString :: split sep r
      else match split sep r with
           | [] => [String c EmptyString]
           | tok :: toks => String c tok :: toks
           end
  end.

(** Truthiness of a string: only the empty string is falsy. *)
Definition truthy (s : string) : bool :=
  match s with EmptyString => false | String _ _ => true end.

(** All characters of [s] satisfy [P]. *)
Fixpoint allChars (P : ascii → bool) (s : string) : bool :=
  match s with
  | EmptyString => true
  | String c r => P c && allChars P r
  end.

End JsString.

Import JsString.

(** ** JavaScript values used as identifiers *)

Inductive JsVal :=
| Undefined
| Num (n : Z)
| Str (s : string).

#[global] Instance JsVal_eq_dec : EqDecision JsVal.
Proof. solve_decision. Defined.

(** [String(v)].  A number is an integer printed in full decimal, as
    JavaScript prints the integers below 2^53 in absolute value; larger
    numbers, which it rounds or prints with an exponent, are outside the
    model. *)
Definition js_String (v : JsVal) : string :=
  match v with
  | Undefined => "undefined"
  | Num n => pretty n
  | Str s => s
  end.

(** [a === b] on identifiers *)
Definition strictEq (a b : JsVal) : bool := bool_decide (a = b).

(** ** Data model *)

(** A user as it appears inside a post or a comment ([post.user],
    [comment.user]) and as [followUser] resolves it. *)
Record UserRef := {
  ref_id : JsVal;
  ref_username : option string;
  ref_followers : option (list JsVal)
}.

Record Comment := {
  comment_id : JsVal;
  comment_text : string;
  comment_user : UserRef
}.

Record Reaction := {
  userId : JsVal;
  reactionType : string
}.

Record Post := {
  post_id : JsVal;
  title : option string;
  content : option string;
  tags : option string;
  images : option string;
  createdAt : option string;
  post_user : option UserRef;
  comments : option (list Comment);
  reactions : option (list Reaction)
}.

(** The [user] of [AuthContext]. *)
Record User := {
  user_id : JsVal;
  user_token : option string
}.

(** What a [catch] block sees of the value it caught: the message and
    [err.response?.status]. *)
Record JsError := {
  message : string;
  response_status : option Z
}.

#[global] Instance UserRef_eq_dec : EqDecision UserRef.
Proof. solve_decision. Defined.
#[global] Instance Comment_eq_dec : EqDecision Comment.
Proof. solve_decision. Defined.
#[global] Instance Reaction_eq_dec : EqDecision Reaction.
Proof. solve_decision. Defined.
#[global] Instance Post_eq_dec : EqDecision Post.
Proof. solve_decision. Defined.
#[global] Instance User_eq_dec : EqDecision User.
Proof. solve_decision. Defined.

(** ** State of the component

    [user], [showAuthForm] and [isLogin] live in [AuthContext]; the rest is
    the component's own [useState] cells.  [console] collects the calls of
    [console.error]. *)
Record HomeState := {
  user : option User;
  showAuthForm : bool;
  isLogin : bool;
  posts : list Post;
  filteredPosts : list Post;
  loading : bool;
  newComments : gmap string string;
  editingCommentId : option JsVal;
  editedCommentText : string;
  showReactions : option JsVal;
  selectedTag : string;
  searchQuery : string;
  error : string;
  console : list (string * JsError)
}.

Definition set_user (v : option User) (st : HomeState) : HomeState :=
  {| user := v;
     showAuthForm := showAuthForm st;
     isLogin := isLogin st;
     posts := posts st;
     filteredPosts := filteredPosts st;
     loading := loading st;
     newComments := newComments st;
     editingCommentId := editingCommentId st;
     editedCommentText := editedCommentText st;
     showReactions := showReactions st;
     selectedTag := selectedTag st;
     searchQuery := searchQuery st;
     error := error st;
     console := console st |}.

Definition set_showAuthForm (v : bool) (st : HomeState) : HomeState :=
  {| user := user st;
     showAuthForm := v;
     isLogin := isLogin st;
     posts := posts st;
     filteredPosts := filteredPosts st;
     loading := loading st;
     newComments := newComments st;
     editingCommentId := editingCommentId st;
     editedCommentText := editedCommentText st;
     showReactions := showReactions st;
     selectedTag := selectedTag st;
     searchQuery := searchQuery st;
     error := error st;
     console := console st |}.

Definition set_isLogin (v : bool) (st : HomeState) : HomeState :=
  {| user := user st;
     showAuthForm := showAuthForm st;
     isLogin := v;
     posts := posts st;
     filteredPosts := filteredPosts st;
     loading := loading st;
     newComments := newComments st;
     editingCommentId := editingCommentId st;
     editedCommentText := editedCommentText st;
     showReactions := showReactions st;
     selectedTag := selectedTag st;
     searchQuery := searchQuery st;
     error := error st;
     console := console st |}.

Definition set_posts (v : list Post) (st : HomeState) : HomeState :=
  {| user := user st;
     showAuthForm := showAuthForm st;
     isLogin := isLogin st;
     posts := v;
     filteredPosts := filteredPosts st;
     loading := loading st;
     newComments := newComments st;
     editingCommentId := editingCommentId st;
     editedCommentText := editedCommentText st;
     showReactions := showReactions st;
     selectedTag := selectedTag st;
     searchQuery := searchQuery st;
     error := error st;
     console := console st |}.

Definition set_filteredPosts (v : list Post) (st : HomeState) : HomeState :=
  {| user := user st;
     showAuthForm := showAuthForm st;
     isLogin := isLogin st;
     posts := posts st;
     filteredPosts := v;
     loading := loading st;
     newComments := newComments st;
     editingCommentId := editingCommentId st;
     editedCommentText := editedCommentText st;
     showReactions := showReactions st;
     selectedTag := selectedTag st;
     searchQuery := searchQuery st;
     error := error st;
     console := console st |}.

Definition set_loading (v : bool) (st : HomeState) : HomeState :=
  {| user := user st;
     showAuthForm := showAuthForm st;
     isLogin := isLogin st;
     posts := posts st;
     filteredPosts := filteredPosts st;
     loading := v;
     newComments := newComments st;
     editingCommentId := editingCommentId st;
     editedCommentText := editedCommentText st;
     showReactions := showReactions st;
     selectedTag := selectedTag st;
     searchQuery := searchQuery st;
     error := error st;
     console := console st |}.

Definition set_newComments (v : gmap string string) (st : HomeState) : HomeState :=
  {| user := user st;
     showAuthForm := showAuthForm st;
     isLogin := isLogin st;
     posts := posts st;
     filteredPosts := filteredPosts st;
     loading := loading st;
     newComments := v;
     editingCommentId := editingCommentId st;
     editedCommentText := editedCommentText st;
     showReactions := showReactions st;
     selectedTag := selectedTag st;
     searchQuery := searchQuery st;
     error := error st;
     console := console st |}.

Definition set_editingCommentId (v : option JsVal) (st : HomeState) : HomeState :=
  {| user := user st;
     showAuthForm := showAuthForm st;
     isLogin := isLogin st;
     posts := posts st;
     filteredPosts := filteredPosts st;
     loading := loading st;
     newComments := newComments st;
     editingCommentId := v;
     editedCommentText := editedCommentText st;
     showReactions := showReactions st;
     selectedTag := selectedTag st;
     searchQuery := searchQuery st;
     error := error st;
     console := console st |}.

Definition set_editedCommentText (v : string) (st : HomeState) : HomeState :=
  {| user := user st;
     showAuthForm := showAuthForm st;
     isLogin := isLogin st;
     posts := posts st;
     filteredPosts := filteredPosts st;
     loading := loading st;
     newComments := newComments st;
     editingCommentId := editingCommentId st;
     editedCommentText := v;
     showReactions := showReactions st;
     selectedTag := selectedTag st;
     searchQuery := searchQuery st;
     error := error st;
     console := console st |}.

Definition set_showReactions (v : option JsVal) (st : HomeState) : HomeState :=
  {| user := user st;
     showAuthForm := showAuthForm st;
     isLogin := isLogin st;
     posts := posts st;
     filteredPosts := filteredPosts st;
     loading := loading st;
     newComments := newComments st;
     editingCommentId := editingCommentId st;
     editedCommentText := editedCommentText st;
     showReactions := v;
     selectedTag := selectedTag st;
     searchQuery := searchQuery st;
     error := error st;
     console := console st |}.

Definition set_selectedTag (v : string) (st : HomeState) : HomeState :=
  {| user := user st;
     showAuthForm := showAuthForm st;
     isLogin := isLogin st;
     posts := posts st;
     filteredPosts := filteredPosts st;
     loading := loading st;
     newComments := newComments st;
     editingCommentId := editingCommentId st;
     editedCommentText := editedCommentText st;
     showReactions := showReactions st;
     selectedTag := v;
     searchQuery := searchQuery st;
     error := error st;
     console := console st |}.

Definition set_searchQuery (v : string) (st : HomeState) : HomeState :=
  {| user := user st;
     showAuthForm := showAuthForm st;
     isLogin := isLogin st;
     posts := posts st;
     filteredPosts := filteredPosts st;
     loading := loading st;
     newComments := newComments st;
     editingCommentId := editingCommentId st;
     editedCommentText := editedCommentText st;
     showReactions := showReactions st;
     selectedTag := selectedTag st;
     searchQuery := v;
     error := error st;
     console := console st |}.

Definition set_error (v : string) (st : HomeState) : HomeState :=
  {| user := user st;
     showAuthForm := showAuthForm st;
     isLogin := isLogin st;
     posts := posts st;
     filteredPosts := filteredPosts st;
     loading := loading st;
     newComments := newComments st;
     editingCommentId := editingCommentId st;
     editedCommentText := editedCommentText st;
     showReactions := showReactions st;
     selectedTag := selectedTag st;
     searchQuery := searchQuery st;
     error := v;
     console := console st |}.

Definition set_console (v : list (string * JsError)) (st : HomeState) : HomeState :=
  {| user := user st;
     showAuthForm := showAuthForm st;
     isLogin := isLogin st;
     posts := posts st;
     filteredPosts := filteredPosts st;
     loading := loading st;
     newComments := newComments st;
     editingCommentId := editingCommentId st;
     editedCommentText := editedCommentText st;
     showReactions := showReactions st;
     selectedTag := selectedTag st;
     searchQuery := searchQuery st;
     error := error st;
     console := v |}.

(** The state of the first render: the [useState] initial values, for a
    given context. *)
Definition initialState (u : option User) : HomeState :=
  {| user := u; showAuthForm := false; isLogin := true;
     posts := []; filteredPosts := []; loading := false;
     newComments := ∅; editingCommentId := None; editedCommentText := "";
     showReactions := None; selectedTag := "All"; searchQuery := "";
     error := ""; console := [] |}.

(** ** The remote service ([api.js]) *)

Inductive Outcome (A : Type) :=
| Resolved (a : A)
| Rejected (e : JsError).
Arguments Resolved {A} a.
Arguments Rejected {A} e.

(** The six functions imported from [api.js], indexed by what they
    resolve to. *)
Inductive Request : Type → Type :=
| getPosts (token : string) : Request (list Post)
| commentOnPost (postId : JsVal) (text : string) (token : option string) : Request Post
| updateComment (postId commentId : JsVal) (text : string) (token : option string) : Request Post
| deleteComment (commentId : JsVal) (token : option string) : Request unit
| addReaction (postId : JsVal) (reactionType : string) (token : option string) : Request Post
| followUser (userId : JsVal) (token : option string) : Request UserRef.

(** The remote service answers every request. *)
Definition Remote := ∀ A, Request A → Outcome A.

(** An [async] handler: it returns at once, or awaits one request and
    finishes with its outcome. *)
Inductive Prog :=
| Ret (st : HomeState)
| Await {A : Type} (rq : Request A) (k : Outcome A → HomeState).

Definition exec (R : Remote) (p : Prog) : HomeState :=
  match p with
  | Ret st => st
  | Await rq k => k (R _ rq)
  end.

(** The requests a handler sends. *)
Definition sent (p : Prog) : list {A : Type & Request A} :=
  match p with
  | Ret _ => []
  | Await rq _ => [existT _ rq]
  end.

(** The error the awaited request is rejected with, if it is. *)
Definition failure (R : Remote) (p : Prog) : option JsError :=
  match p with
  | Ret _ => None
  | Await rq _ =>
      match R _ rq with
      | Resolved _ => None
      | Rejected e => Some e
      end
  end.

(** ** Pieces shared by the handlers *)

(** [err.response?.status === 401] *)
Definition is401 (err : JsError) : bool :=
  bool_decide (response_status err = Some 401%Z).

(** Modelled from the spec: [logout] of [AuthContext], which is not part of
    [Home.jsx].  The spec has the session destroyed on logout: the context
    holds no user afterwards. *)
Definition logout (st : HomeState) : HomeState := set_user None st.

Definition console_error (label : string) (err : JsError) (st : HomeState) : HomeState :=
  set_console (console st ++ [(label, err)]) st.

(** The block every [catch] runs on a 401:
    [logout(); setShowAuthForm(true); setIsLogin(true); setError(...)]. *)
Definition sessionExpired (st : HomeState) : HomeState :=
  set_error "Session expired. Please log in again."
    (set_isLogin true (set_showAuthForm true (logout st))).

(** The [catch] block of the four handlers that only react to a 401. *)
Definition catch401 (label : string) (err : JsError) (st : HomeState) : HomeState :=
  let st := console_error label err st in
  if is401 err then sessionExpired st else st.

(** [posts.map((p) => (p.id === postId ? updatedPost : p))] *)
Definition patch (postId : JsVal) (updatedPost : Post) (ps : list Post) : list Post :=
  map (fun p => if strictEq (post_id p) postId then updatedPost else p) ps.

(** The error of a property read on [undefined].  Its message stands for
    the one of the engine, which the page never reads. *)
Definition typeError : JsError :=
  {| message := "TypeError"; response_status := None |}.

Definition set_comments (cs : option (list Comment)) (p : Post) : Post :=
  {| post_id := post_id p; title := title p; content := content p;
     tags := tags p; images := images p; createdAt := createdAt p;
     post_user := post_user p; comments := cs; reactions := reactions p |}.

Definition set_post_user (u : option UserRef) (p : Post) : Post :=
  {| post_id := post_id p; title := title p; content := content p;
     tags := tags p; images := images p; createdAt := createdAt p;
     post_user := u; comments := comments p; reactions := reactions p |}.

(** [posts.map((p) => p.id === postId
      ? { ...p, comments: p.comments.filter((c) => c.id !== commentId) } : p)];
    [None] when [p.comments] is [undefined] on a matching post (the read of
    [filter] throws). *)
Definition removeComment (postId commentId : JsVal) (ps : list Post) : option (list Post) :=
  mapM (fun p =>
          if strictEq (post_id p) postId then
            match comments p with
            | Some cs =>
                Some (set_comments
                        (Some (List.filter
                                 (fun c => negb (strictEq (comment_id c) commentId)) cs)) p)
            | None => None
            end
          else Some p) ps.

(** [{ ...p.user, followers }]: spreading [undefined] gives an object with
    no other property. *)
Definition withFollowers (fs : option (list JsVal)) (u : option UserRef) : UserRef :=
  match u with
  | Some r => {| ref_id := ref_id r; ref_username := ref_username r; ref_followers := fs |}
  | None => {| ref_id := Undefined; ref_username := None; ref_followers := fs |}
  end.

(** [posts.map((p) => p.id === postId
      ? { ...p, user: { ...p.user, followers: updatedUser.followers } } : p)] *)
Definition patchFollowers (postId : JsVal) (fs : option (list JsVal)) (ps : list Post) : list Post :=
  map (fun p => if strictEq (post_id p) postId
                then set_post_user (Some (withFollowers fs (post_user p))) p
                else p) ps.

(** ** The handlers *)

Definition noTokenError : JsError :=
  {| message := "No authentication token found. Please log in.";
     response_status := None |}.

(** [user?.token] when it is truthy. *)
Definition sessionToken (u : option User) : option string :=
  match u with
  | Some u => match user_token u with
              | Some t => if truthy t then Some t else None
              | None => None
              end
  | None => None
  end.

Definition fetchPosts_catch (err : JsError) (st : HomeState) : HomeState :=
  let st := console_error "Failed to load posts:" err st in
  if is401 err then sessionExpired st
  else set_error "Failed to load posts. Please try again later." st.

Definition fetchPosts (st : HomeState) : Prog :=
  let st1 := set_loading true st in
  match sessionToken (user st) with
  | None => Ret (set_loading false (fetchPosts_catch noTokenError st1))
  | Some tok =>
      Await (getPosts tok) (fun o =>
        set_loading false
          match o with
          | Resolved postsData => set_filteredPosts postsData (set_posts postsData st1)
          | Rejected err => fetchPosts_catch err st1
          end)
  end.

(** [newComments[postId]]: the key of the object is [String(postId)]. *)
Definition draft (postId : JsVal) (st : HomeState) : option string :=
  newComments st !! js_String postId.

Definition handleCommentSubmit (postId : JsVal) (st : HomeState) : Prog :=
  match user st, draft postId st with
  | Some u, Some text =>
      if truthy (trim text) then
        Await (commentOnPost postId text (user_token u)) (fun o =>
          match o with
          | Resolved updatedPost =>
              set_newComments (<[js_String postId := ""]> (newComments st))
                (set_posts (patch postId updatedPost (posts st)) st)
          | Rejected err => catch401 "Failed to add comment:" err st
          end)
      else Ret st
  | _, _ => Ret st
  end.

Definition startEditingComment (comment : Comment) (st : HomeState) : HomeState :=
  match user st with
  | Some u =>
      if bool_decide (js_String (user_id u) = js_String (ref_id (comment_user comment)))
      then set_editedCommentText (comment_text comment)
             (set_editingCommentId (Some (comment_id comment)) st)
      else st
  | None => st
  end.

Definition handleCommentUpdate (postId commentId : JsVal) (st : HomeState) : Prog :=
  match user st with
  | Some u =>
      if truthy (trim (editedCommentText st)) then
        Await (updateComment postId commentId (editedCommentText st) (user_token u)) (fun o =>
          match o with
          | Resolved updatedPost =>
              set_editedCommentText ""
                (set_editingCommentId None
                   (set_posts (patch postId updatedPost (posts st)) st))
          | Rejected err => catch401 "Failed to update comment:" err st
          end)
      else Ret st
  | None => Ret st
  end.

Definition handleCommentDelete (postId commentId : JsVal) (st : HomeState) : Prog :=
  match user st with
  | Some u =>
      Await (deleteComment commentId (user_token u)) (fun o =>
        match o with
        | Resolved _ =>
            match removeComment postId commentId (posts st) with
            | Some ps => set_editingCommentId None (set_posts ps st)
            | None => catch401 "Failed to delete comment:" typeError st
            end
        | Rejected err => catch401 "Failed to delete comment:" err st
        end)
  | None => Ret st
  end.

Definition handleReaction (postId : JsVal) (type : string) (st : HomeState) : Prog :=
  match user st with
  | Some u =>
      Await (addReaction postId type (user_token u)) (fun o =>
        set_showReactions None
          match o with
          | Resolved updatedPost => set_posts (patch postId updatedPost (posts st)) st
          | Rejected err => catch401 "Failed to add reaction:" err st
          end)
  | None => Ret st
  end.

Definition handleFollowPost (postId userId : JsVal) (st : HomeState) : Prog :=
  match user st with
  | Some u =>
      Await (followUser userId (user_token u)) (fun o =>
        match o with
        | Resolved updatedUser =>
            set_posts (patchFollowers postId (ref_followers updatedUser) (posts st)) st
        | Rejected err =>
            let st := console_error "Failed to follow user:" err st in
            if is401 err then sessionExpired st
            else set_error "Failed to follow user. Please try again." st
        end)
  | None => Ret (set_isLogin true (set_showAuthForm true st))
  end.

(** ** The projections *)

(** [post.tags.split(",").map((tag) => tag.trim())] *)
Definition tagTokens (s : string) : list string := map trim (split "," s).

(** [post.tags && post.tags.split(",").map(...).includes(selectedTag)] *)
Definition hasSelectedTag (selectedTag : string) (post : Post) : bool :=
  match tags post with
  | Some s => truthy s && bool_decide (selectedTag ∈ tagTokens s)
  | None => false
  end.

(** [field?.toLowerCase().includes(query)] *)
Definition fieldIncludes (field : option string) (query : string) : bool :=
  match field with
  | Some s => includes (toLowerCase s) query
  | None => false
  end.

Definition matchesQuery (query : string) (post : Post) : bool :=
  fieldIncludes (title post) query || fieldIncludes (content post) query.

(** The first [if] of the filtering effect. *)
Definition tagFilter (selectedTag : string) (result : list Post) : list Post :=
  if bool_decide (selectedTag ≠ "All")
  then List.filter (hasSelectedTag selectedTag) result
  else result.

(** The second [if] of the filtering effect. *)
Definition searchFilter (searchQuery : string) (result : list Post) : list Post :=
  if truthy (trim searchQuery)
  then let query := trim (toLowerCase searchQuery) in
       List.filter (matchesQuery query) result
  else result.

(** The value the filtering effect hands to [setFilteredPosts]. *)
Definition applyFilters (selectedTag searchQuery : string) (ps : list Post) : list Post :=
  searchFilter searchQuery (tagFilter selectedTag ps).

Definition getReactionCount (post : Post) (type : string) : nat :=
  match reactions post with
  | Some rs => length (List.filter (fun r => String.eqb (reactionType r) type) rs)
  | None => 0
  end.

(** [user?.id] *)
Definition sessionId (u : option User) : JsVal :=
  match u with
  | Some u => user_id u
  | None => Undefined
  end.

(** [post.reactions?.some(...)]; [None] is [undefined]. *)
Definition hasUserReacted (u : option User) (post : Post) (type : string) : option bool :=
  match reactions post with
  | Some rs =>
      Some (existsb (fun r => strictEq (userId r) (sessionId u)
                              && String.eqb (reactionType r) type) rs)
  | None => None
  end.

(** ** The effects and the render cycle *)

(** [useEffect(..., [user])] *)
Definition userEffect (st : HomeState) : Prog :=
  match user st with
  | Some _ => fetchPosts st
  | None => Ret (set_filteredPosts [] (set_posts [] st))
  end.

(** [useEffect(..., [selectedTag, searchQuery, posts])] *)
Definition filterEffect (st : HomeState) : HomeState :=
  set_filteredPosts (applyFilters (selectedTag st) (searchQuery st) (posts st)) st.

(** The renders that follow a change of state, until no effect is due.
    The effect on [user] runs when [user] differs from the previous render;
    it can change [user] once more (a 401 on the fetch logs out), and the
    effect of that render does not change it again.  The filtering effect
    writes [filteredPosts] only and reads none of it, so running it once at
    the end gives the state the renders settle in.  The dependency [user]
    is compared by its fields; a context that hands out a new object with
    the same fields makes the program fetch again, which is the operation
    [refresh] invoked once more. *)
Definition afterRender (R : Remote) (prev st : HomeState) : HomeState :=
  if bool_decide (user prev = user st) then filterEffect st
  else
    let st1 := exec R (userEffect st) in
    if bool_decide (user st = user st1) then filterEffect st1
    else filterEffect (exec R (userEffect st1)).

(** A handler run from a state, followed by the renders it causes. *)
Definition dispatch (R : Remote) (h : HomeState → Prog) (st : HomeState) : HomeState :=
  afterRender R st (exec R (h st)).

(** The operations that call the remote service, by the names the
    specification gives them. *)
Inductive RemoteOp :=
| refresh
| addComment (postId : JsVal)
| editComment (postId commentId : JsVal)
| removeCommentOp (postId commentId : JsVal)
| toggleReaction (postId : JsVal) (type : string)
| follow (postId userId : JsVal).

Definition handler (op : RemoteOp) : HomeState → Prog :=
  match op with
  | refresh => fetchPosts
  | addComment postId => handleCommentSubmit postId
  | editComment postId commentId => handleCommentUpdate postId commentId
  | removeCommentOp postId commentId => handleCommentDelete postId commentId
  | toggleReaction postId type => handleReaction postId type
  | follow postId userId => handleFollowPost postId userId
  end.

Definition isMutation (op : RemoteOp) : bool :=
  match op with
  | refresh => false
  | _ => true
  end.

(** ** What the comment list renders

    The pencil button of a comment is rendered when
    [user && String(user.id) === String(comment.user.id)] and calls
    [startEditingComment]; the Update button is rendered for the comment
    with [editingCommentId === comment.id] and calls
    [handleCommentUpdate(post.id, comment.id)]. *)
Definition rendersUpdateButton (comment : Comment) (st : HomeState) : bool :=
  bool_decide (editingCommentId st = Some (comment_id comment)).

Definition clickUpdate (postId : JsVal) (comment : Comment) (st : HomeState) : Prog :=
  if rendersUpdateButton comment st
  then handleCommentUpdate postId (comment_id comment) st
  else Ret st.

(** ** The specification's reading of the filter

    The predicates below follow the words of the specification, not the
    code; the theorems on the filter compare the two. *)

(** [q] occurs in [s] as a substring. *)
Definition isSubstring (q s : string) : Prop :=
  ∃ before after : string, s = before +:+ q +:+ after.

(** [q] occurs in [s] when the case of letters is ignored. *)
Definition containsIgnoringCase (s q : string) : Prop :=
  isSubstring (toLowerCase q) (toLowerCase s).

(** The tag set of a post: the comma-separated tokens of its tag text,
    trimmed; a post without tag text has no tag. *)
Definition specTagSet (post : Post) : list string :=
  match tags post with
  | None => []
  | Some EmptyString => []
  | Some s => map trim (split "," s)
  end.

(** The post passes the search for [Q]: nothing is asked when the trimmed
    [Q] is empty; otherwise its title or its content contains the trimmed
    [Q], case ignored. *)
Definition specSearchOk (Q : string) (post : Post) : Prop :=
  trim Q ≠ "" →
  (∃ t, title post = Some t ∧ containsIgnoringCase t (trim Q)) ∨
  (∃ c, content post = Some c ∧ containsIgnoringCase c (trim Q)).

(** The same test as a function, for use in a filter: [specKeeps T Q post]
    is the conjunction of the tag test and of the search test. *)
Definition specContains (field : option string) (q : string) : bool :=
  match field with
  | Some s => includes (toLowerCase s) (toLowerCase q)
  | None => false
  end.

Definition specKeeps (T Q : string) (post : Post) : bool :=
  bool_decide (T ∈ specTagSet post)
  && match trim Q with
     | EmptyString => true
     | q => specContains (title post) q || specContains (content post) q
     end.

(** A string of white space only (or empty). *)
Definition isBlank (s : string) : Prop := allChars isWhiteSpace s = true.

(** ** The tag menu *)

(** [post.tags ? post.tags.split(",").map((tag) => tag.trim()) : []] *)
Definition postTags (post : Post) : list string :=
  match tags post with
  | Some s => if truthy s then tagTokens s else []
  | None => []
  end.

(** [[...new Set(l)]] for a set that holds [set] already: a value is added
    at the end unless the set has it; the spread lists the values in the
    order they were added. *)
Fixpoint setAddAll (set l : list string) : list string :=
  match l with
  | [] => set
  | x :: r => setAddAll (if bool_decide (x ∈ set) then set else set ++ [x]) r
  end.

Definition getUniqueTags (ps : list Post) : list string :=
  let allTags := flat_map postTags ps in
  "All" :: setAddAll [] allTags.

(** ** One post of a delete *)

(** What [removeComment] does to one post. *)
Definition withoutComment (postId commentId : JsVal) (p : Post) : option Post :=
  if strictEq (post_id p) postId then
    match comments p with
    | Some cs =>
        Some (set_comments
                (Some (List.filter
                         (fun c => negb (strictEq (comment_id c) commentId)) cs)) p)
    | None => None
    end
  else Some p.

(** ** What a failed operation reports *)

(** The label each [catch] block gives to [console.error]. *)
Definition failureLabel (op : RemoteOp) : string :=
  match op with
  | refresh => "Failed to load posts:"
  | addComment _ => "Failed to add comment:"
  | editComment _ _ => "Failed to update comment:"
  | removeCommentOp _ _ => "Failed to delete comment:"
  | toggleReaction _ _ => "Failed to add reaction:"
  | follow _ _ => "Failed to follow user:"
  end.

(** The message shown after a failure that is not a 401: only the fetch
    and the follow set one. *)
Definition failureMessage (op : RemoteOp) (st : HomeState) : string :=
  match op with
  | refresh => "Failed to load posts. Please try again later."
  | follow _ _ => "Failed to follow user. Please try again."
  | _ => error st
  end.

(** ** The reaction total of a card: [post.reactions?.length || 0] *)
Definition totalReactions (post : Post) : nat :=
  match reactions post with
  | Some rs => length rs
  | None => 0
  end.

(** ** The filter as one test

    What a post has to pass to be kept by both [if]s of the filtering
    effect. *)
Definition passesFilters (selectedTag searchQuery : string) (post : Post) : bool :=
  (if bool_decide (selectedTag ≠ "All") then hasSelectedTag selectedTag post else true)
  && (if truthy (trim searchQuery)
      then matchesQuery (trim (toLowerCase searchQuery)) post
      else true).

(** ** The Follow button

    It is rendered on a post when [user && user.id !== post.user?.id] and
    calls [handleFollowPost(post.id, post.user?.id)]. *)

(** [post.user?.id] *)
Definition authorId (post : Post) : JsVal :=
  match post_user post with
  | Some r => ref_id r
  | None => Undefined
  end.

Definition rendersFollowButton (post : Post) (st : HomeState) : bool :=
  match user st with
  | Some u => negb (strictEq (user_id u) (authorId post))
  | None => false
  end.

Definition clickFollow (post : Post) (st : HomeState) : Prog :=
  if rendersFollowButton post st
  then handleFollowPost (post_id post) (authorId post) st
  else Ret st.

(** ** Sharing *)

(** [`http://localhost:3000/posts/${postId}`] *)
Definition getPostUrl (postId : JsVal) : string :=
  "http://localhost:3000/posts/" +:+ js_String postId.

(** The [title] of [handleShare]:
    [posts.find((p) => p.id === postId)?.title || "Check out this post!"]. *)
Definition shareTitle (ps : list Post) (postId : JsVal) : string :=
  match List.find (fun p => strictEq (post_id p) postId) ps with
  | Some p =>
      match title p with
      | Some t => if truthy t then t else "Check out this post!"
      | None => "Check out this post!"
      end
  | None => "Check out this post!"
  end.

(** ** The login form

    [username] and [password] are cells of the component; [login] and
    [register] belong to [AuthContext] and are seen here as the call that
    is awaited and its outcome. *)
Record AuthForm := {
  username : string;
  password : string
}.

Inductive AuthCall :=
| login (username password : string)
| register (username password : string).

(** The call [handleAuthSubmit] awaits. *)
Definition authCall (form : AuthForm) (st : HomeState) : AuthCall :=
  if isLogin st then login (username form) (password form)
  else register (username form) (password form).

(** Modelled from the spec: what a [login] or a [register] of
    [AuthContext] that resolves leaves behind.  Neither is part of
    [Home.jsx]; the spec has them yield a session, after which the feed is
    fetched: the context holds the user the call resolved to.  A call that
    is rejected leaves the context as it was. *)
Definition loggedIn (u : User) (st : HomeState) : HomeState := set_user (Some u) st.

(** [handleAuthSubmit] once the call has settled, with the user it
    resolved to or the error it was rejected with.  [console.error] is
    given [err.message] only: the entry keeps the message and no status. *)
Definition handleAuthSubmit (form : AuthForm) (st : HomeState) (o : Outcome User)
  : AuthForm * HomeState :=
  let st := set_error "" st in
  match o with
  | Resolved u => ({| username := ""; password := "" |}, set_error "" (loggedIn u st))
  | Rejected err =>
      let st := console_error "Authentication error:"
                  {| message := message err; response_status := None |} st in
      (form,
       set_error (if truthy (message err) then message err
                  else "Authentication failed") st)
  end.

(** ** Events

    What can happen to the component between two renders at rest: the
    context changes its user (a login or a logout made elsewhere),
    one of the six operations is invoked, or one of the plain setters the
    page wires to its controls is called.  The controls that write only
    cells outside [HomeState] (the open comment section, the share panel,
    the two fields of the login form) change nothing here and are left
    out. *)
Inductive Event :=
| SessionChanged (u : option User)
| Invoke (op : RemoteOp)
| StartEditing (comment : Comment)
| TypeDraft (postId : JsVal) (text : string)
| TypeEdit (text : string)
| CancelEdit
| SelectTag (tag : string)
| Search (query : string)
| HoverReactions (postId : option JsVal)
| OpenAuthForm (asLogin : bool)
| CloseAuthForm
| SwitchAuthMode
| SubmitAuth (form : AuthForm) (o : Outcome User).

Definition react (ev : Event) (st : HomeState) : Prog :=
  match ev with
  | SessionChanged u => Ret (set_user u st)
  | Invoke op => handler op st
  | StartEditing comment => Ret (startEditingComment comment st)
  | TypeDraft postId text =>
      Ret (set_newComments (<[js_String postId := text]> (newComments st)) st)
  | TypeEdit text => Ret (set_editedCommentText text st)
  | CancelEdit => Ret (set_editingCommentId None st)
  | SelectTag tag => Ret (set_selectedTag tag st)
  | Search query => Ret (set_searchQuery query st)
  | HoverReactions postId => Ret (set_showReactions postId st)
  | OpenAuthForm asLogin => Ret (set_isLogin asLogin (set_showAuthForm true st))
  | CloseAuthForm => Ret (set_showAuthForm false st)
  | SwitchAuthMode => Ret (set_error "" (set_isLogin (negb (isLogin st)) st))
  | SubmitAuth form o => Ret (snd (handleAuthSubmit form st o))
  end.

(** One event and the renders it causes; the service may answer
    differently at each event. *)
Definition step (R : Remote) (ev : Event) (st : HomeState) : HomeState :=
  afterRender R st (exec R (react ev st)).

Fixpoint run (trace : list (Remote * Event)) (st : HomeState) : HomeState :=
  match trace with
  | [] => st
  | (R, ev) :: rest => run rest (step R ev st)
  end.

(** The first render: both effects run, then the renders they cause. *)
Definition mount (R : Remote) (u : option User) : HomeState :=
  afterRender R (initialState u) (exec R (userEffect (initialState u))).

(** ** A small feed, used in the examples

    Two posts as in the specification's scenario (tags "Art, Music" and
    "Cooking"), one comment by the first user, and two sessions. *)

Definition alice : User := {| user_id := Num 1; user_token := Some "token-alice" |}.
Definition bob : User := {| user_id := Num 2; user_token := Some "token-bob" |}.

Definition aliceRef : UserRef :=
  {| ref_id := Num 1; ref_username := Some "alice"; ref_followers := Some [] |}.

Definition firstComment : Comment :=
  {| comment_id := Num 10; comment_text := "first"; comment_user := aliceRef |}.

Definition artPost : Post :=
  {| post_id := Num 1; title := Some "Sketching"; content := Some "Pencil and Ink";
     tags := Some "Art, Music"; images := None; createdAt := None;
     post_user := Some aliceRef; comments := Some [firstComment];
     reactions := Some [{| userId := Num 2; reactionType := "LIKE" |}] |}.

Definition cookingPost : Post :=
  {| post_id := Num 2; title := Some "Bread"; content := Some "Flour, water";
     tags := Some "Cooking"; images := None; createdAt := None;
     post_user := None; comments := None; reactions := None |}.

Definition untaggedPost : Post :=
  {| post_id := Num 3; title := Some "Notes"; content := None;
     tags := None; images := None; createdAt := None;
     post_user := None; comments := None; reactions := None |}.

Definition scenarioPosts : list Post := [artPost; cookingPost].

(** The first post after its comment was rewritten. *)
Definition artPostEdited : Post :=
  set_comments
    (Some [{| comment_id := Num 10; comment_text := "edited"; comment_user := aliceRef |}])
    artPost.

(** A service that resolves every request. *)
Definition servingRemote : Remote :=
  fun A rq =>
    match rq in Request T return Outcome T with
    | getPosts _ => Resolved scenarioPosts
    | commentOnPost _ _ _ => Resolved artPost
    | updateComment _ _ _ _ => Resolved artPostEdited
    | deleteComment _ _ => Resolved tt
    | addReaction _ _ _ => Resolved artPost
    | followUser _ _ => Resolved aliceRef
    end.

(** A service that rejects every request with the given status. *)
Definition failingRemote (status : option Z) : Remote :=
  fun A rq => Rejected {| message := "Request failed"; response_status := status |}.

(** A session with the feed loaded. *)
Definition loaded (u : User) : HomeState :=
  set_filteredPosts scenarioPosts (set_posts scenarioPosts (initialState (Some u))).

(** The first user opens the edit box of her comment and types; then the
    session changes to the second user while the box is open. *)
Definition aliceEditing : HomeState :=
  set_editedCommentText "edited" (startEditingComment firstComment (loaded alice)).

Definition bobTakesOver : HomeState := set_user (Some bob) aliceEditing.

(** A session with a draft of spaces on the first post. *)
Definition blankDraft : HomeState :=
  set_newComments (<[js_String (Num 1) := "   "]> ∅) (loaded alice).

(** * Properties *)

(** ** Strings *)

Section StringFacts.

Lemma startsWith_spec (s q : string) :
  startsWith s q = true ↔ ∃ after : string, s = q +:+ after.
Proof.
  revert s. induction q as [|b q IH]; intros s; simpl.
  - split; [intros _; by exists s | by destruct s].
  - destruct s as [|a s].
    + split; [done | intros [after H]; discriminate].
    + simpl. rewrite andb_true_iff, IH. split.
      * intros [Hab [after ->]]. apply Ascii.eqb_eq in Hab as ->. by exists after.
      * intros [after H]. injection H as -> ->. split; [apply Ascii.eqb_refl | by exists after].
Qed.

Lemma includes_spec (s q : string) : includes s q = true ↔ isSubstring q s.
Proof.
  unfold isSubstring. induction s as [|a s IH].
  - cbn [includes]. rewrite orb_false_r, startsWith_spec. split.
    + intros [after H]. by exists "", after.
    + intros [before [after H]]. destruct before; [by exists after | discriminate].
  - cbn [includes]. rewrite orb_true_iff, IH, startsWith_spec. split.
    + intros [[after H] | [before [after H]]].
      * by exists "", after.
      * exists (String a before), after. simpl. by rewrite H.
    + intros [before [after H]]. destruct before as [|b before].
      * left. by exists after.
      * right. simpl in H. injection H as _ H. by exists before, after.
Qed.

Lemma truthy_false (s : string) : truthy s = false ↔ s = "".
Proof. by destruct s. Qed.

Lemma truthy_true (s : string) : truthy s = true ↔ s ≠ "".
Proof. by destruct s. Qed.

Lemma trimStart_blank (s : string) : isBlank s → trimStart s = "".
Proof.
  unfold isBlank. induction s as [|c s IH]; simpl; [done|].
  intros [Hc Hs]%andb_true_iff. rewrite Hc. auto.
Qed.

Lemma trim_blank (s : string) : isBlank s → trim s = "".
Proof. intros H. unfold trim. by rewrite trimStart_blank. Qed.

Lemma trimEnd_empty (s : string) : trimEnd s = "" → isBlank s.
Proof.
  unfold isBlank. induction s as [|c s IH]; simpl; [done|].
  destruct (trimEnd s) eqn:E; [|done].
  destruct (isWhiteSpace c); [auto | done].
Qed.

Lemma trim_empty (s : string) : trim s = "" → isBlank s.
Proof.
  unfold trim, isBlank. induction s as [|c s IH]; simpl; [done|].
  destruct (isWhiteSpace c) eqn:Hc; simpl; [auto|].
  intros H. apply (trimEnd_empty (String c s)) in H.
  unfold isBlank in H. simpl in H. by rewrite Hc in H.
Qed.

Lemma trim_blank_iff (s : string) : trim s = "" ↔ isBlank s.
Proof. split; [apply trim_empty | apply trim_blank]. Qed.

Lemma isWhiteSpace_lowerChar (c : ascii) :
  isWhiteSpace (lowerChar c) = isWhiteSpace c.
Proof. by destruct c as [[] [] [] [] [] [] [] []]. Qed.

Lemma trimStart_toLowerCase (s : string) :
  trimStart (toLowerCase s) = toLowerCase (trimStart s).
Proof.
  induction s as [|c s IH]; simpl; [done|].
  rewrite isWhiteSpace_lowerChar. by destruct (isWhiteSpace c).
Qed.

Lemma trimEnd_toLowerCase (s : string) :
  trimEnd (toLowerCase s) = toLowerCase (trimEnd s).
Proof.
  induction s as [|c s IH]; simpl; [done|].
  rewrite IH, isWhiteSpace_lowerChar.
  destruct (trimEnd s); simpl; [by destruct (isWhiteSpace c) | done].
Qed.

Lemma trim_toLowerCase (s : string) : trim (toLowerCase s) = toLowerCase (trim s).
Proof. unfold trim. by rewrite trimStart_toLowerCase, trimEnd_toLowerCase. Qed.

End StringFacts.

(** ** The filter *)

Lemma filter_twice {A : Type} (f g : A → bool) (l : list A) :
  List.filter f (List.filter g l) = List.filter (fun x => g x && f x) l.
Proof.
  induction l as [|x l IH]; simpl; [done|].
  destruct (g x); simpl; [|done]. destruct (f x); by rewrite IH.
Qed.

Lemma hasSelectedTag_spec (T : string) (post : Post) :
  hasSelectedTag T post = bool_decide (T ∈ specTagSet post).
Proof.
  unfold hasSelectedTag, specTagSet, tagTokens.
  destruct (tags post) as [[|c s]|]; simpl; try done.
  all: symmetry; apply bool_decide_eq_false; by intros ?%elem_of_nil.
Qed.

Lemma specContains_spec (field : option string) (q : string) :
  specContains field q = true ↔ ∃ s, field = Some s ∧ containsIgnoringCase s q.
Proof.
  unfold specContains, containsIgnoringCase. destruct field as [s|].
  - rewrite includes_spec. split; [intros H; by exists s | by intros [? [[= <-] H]]].
  - split; [done | by intros [? [? _]]].
Qed.

Lemma specKeeps_spec (T Q : string) (post : Post) :
  specKeeps T Q post = true ↔ T ∈ specTagSet post ∧ specSearchOk Q post.
Proof.
  unfold specKeeps, specSearchOk.
  rewrite andb_true_iff, bool_decide_eq_true.
  destruct (trim Q) as [|c q] eqn:E.
  - split; [intros [H _]; by split | by intros [H _]].
  - rewrite orb_true_iff, !specContains_spec. split.
    + intros [H1 H2]. by split.
    + intros [H1 H2]. split; [done|]. by apply H2.
Qed.

Lemma matchesQuery_spec (Q : string) (post : Post) :
  truthy (trim Q) = true →
  matchesQuery (trim (toLowerCase Q)) post
  = match trim Q with
    | EmptyString => true
    | q => specContains (title post) q || specContains (content post) q
    end.
Proof.
  intros H. rewrite trim_toLowerCase.
  destruct (trim Q) as [|c q]; [done|]. reflexivity.
Qed.

Lemma tagFilter_All (ps : list Post) : tagFilter "All" ps = ps.
Proof. reflexivity. Qed.

Lemma searchFilter_blank (Q : string) (ps : list Post) :
  trim Q = "" → searchFilter Q ps = ps.
Proof. intros H. unfold searchFilter. by rewrite H. Qed.

(** C6.  With a selected tag [T] other than "All" and any search text [Q],
    the filtered output is the sub-sequence of the posts, in their order,
    that the specification keeps: those whose set of trimmed,
    comma-separated tags contains [T] and, when the trimmed [Q] is not
    empty, whose title or content contains the trimmed [Q] with case
    ignored.  The two conditions are a conjunction, and the effect computes
    the output from [posts], whatever [filteredPosts] held before. *)
Theorem filter_keeps_exactly_the_matching_posts (P : list Post) (T Q : string) :
  T ≠ "All" →
  applyFilters T Q P = List.filter (specKeeps T Q) P
  ∧ (∀ post, specKeeps T Q post = true ↔ T ∈ specTagSet post ∧ specSearchOk Q post)
  ∧ (∀ post, post ∈ applyFilters T Q P ↔
             post ∈ P ∧ T ∈ specTagSet post ∧ specSearchOk Q post)
  ∧ (∀ st, selectedTag st = T → searchQuery st = Q → posts st = P →
           filteredPosts (filterEffect st) = List.filter (specKeeps T Q) P).
Proof.
  intros HT.
  assert (E : applyFilters T Q P = List.filter (specKeeps T Q) P).
  { unfold applyFilters, tagFilter, searchFilter.
    rewrite (bool_decide_eq_true_2 _ HT).
    destruct (truthy (trim Q)) eqn:HQ.
    - cbv zeta. rewrite filter_twice. apply List.filter_ext. intros post.
      unfold specKeeps. by rewrite hasSelectedTag_spec, matchesQuery_spec.
    - apply truthy_false in HQ. apply List.filter_ext. intros post.
      unfold specKeeps. by rewrite hasSelectedTag_spec, HQ, andb_true_r. }
  split; [exact E|]. split; [apply specKeeps_spec|]. split.
  - intros post. rewrite E, <- specKeeps_spec, !list_elem_of_In.
    apply List.filter_In.
  - intros st <- <- <-. exact E.
Qed.

(** C7.  With the tag "All" and an empty search text the filter is the
    identity: the output is the post sequence itself, and it is what the
    filtering effect stores. *)
Theorem filter_All_empty_query_is_identity (P : list Post) :
  applyFilters "All" "" P = P
  ∧ ∀ u, filteredPosts (filterEffect (set_posts P (initialState u))) = P.
Proof. split; [reflexivity | intros u; reflexivity]. Qed.

(** C10.  A post whose [tags] is absent or empty is in no output of a
    selected tag other than "All", whatever the search text; under "All"
    the tag stage keeps every post, so such a post is kept by the tag stage,
    the output is what the search alone keeps, and with a blank search text
    the post is in the output. *)
Theorem untagged_post_matches_no_tag (P : list Post) (post : Post) :
  tags post = None ∨ tags post = Some "" →
  (∀ T Q, T ≠ "All" → post ∉ applyFilters T Q P)
  ∧ (∀ T, T ≠ "All" → post ∉ tagFilter T P)
  ∧ (post ∈ P → post ∈ tagFilter "All" P)
  ∧ (∀ Q, applyFilters "All" Q P = searchFilter Q P)
  ∧ (post ∈ P → ∀ Q, isBlank Q → post ∈ applyFilters "All" Q P).
Proof.
  intros Htags.
  assert (Hno : ∀ T, hasSelectedTag T post = false).
  { intros T. unfold hasSelectedTag. by destruct Htags as [-> | ->]. }
  assert (Htag : ∀ T, T ≠ "All" → post ∉ tagFilter T P).
  { intros T HT. unfold tagFilter. rewrite (bool_decide_eq_true_2 _ HT).
    rewrite list_elem_of_In, List.filter_In. intros [_ H]. by rewrite Hno in H. }
  split; [|split; [exact Htag|split; [|split]]].
  - intros T Q HT Hin. apply (Htag T HT).
    unfold applyFilters, searchFilter in Hin.
    destruct (truthy (trim Q)); [|done].
    apply list_elem_of_In, List.filter_In in Hin as [Hin _].
    by apply list_elem_of_In.
  - by rewrite tagFilter_All.
  - intros Q. unfold applyFilters. by rewrite tagFilter_All.
  - intros Hin Q HQ. unfold applyFilters.
    by rewrite tagFilter_All, searchFilter_blank by by apply trim_blank.
Qed.

(** ** Reactions *)

(** C8.  [hasUserReacted] gives [true] exactly when some reaction of the
    post has the user's id as [userId] and the asked type as
    [reactionType]; this holds for every type, "LIKE" and "LOVE" among
    them.  Equality of ids is [===]. *)
Theorem hasUserReacted_true_iff (u : User) (post : Post) (type : string) :
  hasUserReacted (Some u) post type = Some true
  ↔ ∃ rs r, reactions post = Some rs ∧ r ∈ rs
            ∧ userId r = user_id u ∧ reactionType r = type.
Proof.
  unfold hasUserReacted, strictEq. cbn [sessionId].
  destruct (reactions post) as [rs|].
  - split.
    + intros [= H]. apply List.existsb_exists in H as [r [Hin H]].
      apply andb_true_iff in H as [H1 H2].
      apply bool_decide_eq_true in H1. apply String.eqb_eq in H2.
      exists rs, r. by rewrite list_elem_of_In.
    + intros [rs' [r [[= <-] [Hin [H1 H2]]]]]. f_equal.
      apply List.existsb_exists. exists r. rewrite <- list_elem_of_In.
      split; [done|]. apply andb_true_iff. split.
      * by apply bool_decide_eq_true.
      * by apply String.eqb_eq.
  - split; [done | by intros [rs [r [? _]]]].
Qed.

(** ** Patching one post *)

Lemma patch_length (postId : JsVal) (updatedPost : Post) (ps : list Post) :
  length (patch postId updatedPost ps) = length ps.
Proof. unfold patch. apply length_map. Qed.

Lemma patch_lookup (postId : JsVal) (updatedPost : Post) (ps : list Post) (i : nat) :
  patch postId updatedPost ps !! i
  = (fun p => if strictEq (post_id p) postId then updatedPost else p) <$> ps !! i.
Proof.
  unfold patch. revert i. induction ps as [|q ps IH]; intros [|i]; simpl; auto.
Qed.

(** C5.  After [patch postId updatedPost] the sequence has the same
    length; a position that held a post with id [postId] holds
    [updatedPost], and a position that held any other post holds that
    post. *)
Theorem patch_replaces_in_place
    (ps : list Post) (postId : JsVal) (updatedPost : Post) (i : nat) (p : Post) :
  ps !! i = Some p →
  length (patch postId updatedPost ps) = length ps
  ∧ (post_id p = postId → patch postId updatedPost ps !! i = Some updatedPost)
  ∧ (post_id p ≠ postId → patch postId updatedPost ps !! i = Some p).
Proof.
  intros Hi. split; [apply patch_length|].
  rewrite patch_lookup, Hi. unfold strictEq. simpl. split; intros H.
  - by rewrite bool_decide_eq_true_2.
  - by rewrite bool_decide_eq_false_2.
Qed.

(** The three handlers whose request resolves to a post store
    [patch postId updatedPost posts]. *)
Lemma success_applies_patch (R : Remote) (st : HomeState) (postId commentId : JsVal)
    (type text : string) (u : User) (updatedPost : Post) :
  user st = Some u →
  (draft postId st = Some text → truthy (trim text) = true →
   R _ (commentOnPost postId text (user_token u)) = Resolved updatedPost →
   posts (exec R (handleCommentSubmit postId st)) = patch postId updatedPost (posts st))
  ∧ (truthy (trim (editedCommentText st)) = true →
     R _ (updateComment postId commentId (editedCommentText st) (user_token u))
       = Resolved updatedPost →
     posts (exec R (handleCommentUpdate postId commentId st))
       = patch postId updatedPost (posts st))
  ∧ (R _ (addReaction postId type (user_token u)) = Resolved updatedPost →
     posts (exec R (handleReaction postId type st)) = patch postId updatedPost (posts st)).
Proof.
  intros Hu. repeat split.
  - intros Hd Ht HR. unfold handleCommentSubmit. rewrite Hu, Hd, Ht. simpl. by rewrite HR.
  - intros Ht HR. unfold handleCommentUpdate. rewrite Hu, Ht. simpl. by rewrite HR.
  - intros HR. unfold handleReaction. rewrite Hu. simpl. by rewrite HR.
Qed.

(** ** Renders *)

Lemma posts_filterEffect (st : HomeState) : posts (filterEffect st) = posts st.
Proof. reflexivity. Qed.

Lemma afterRender_same_user (R : Remote) (prev st : HomeState) :
  user prev = user st → afterRender R prev st = filterEffect st.
Proof. intros H. unfold afterRender. by rewrite bool_decide_eq_true_2. Qed.

Lemma afterRender_logged_out (R : Remote) (prev st : HomeState) :
  user prev ≠ None → user st = None →
  afterRender R prev st = filterEffect (set_filteredPosts [] (set_posts [] st)).
Proof.
  intros Hprev Hst. unfold afterRender.
  rewrite bool_decide_eq_false_2 by congruence.
  unfold userEffect. rewrite Hst. simpl.
  by rewrite bool_decide_eq_true_2.
Qed.

(** The unrolling in [afterRender] is enough: in the state it returns, the
    effect on [user] is not due again. *)
Lemma userEffect_keeps_logged_out (R : Remote) (st : HomeState) :
  user st = None → user (exec R (userEffect st)) = None.
Proof. intros H. unfold userEffect. by rewrite H. Qed.

Lemma fetchPosts_user (R : Remote) (st : HomeState) :
  user (exec R (fetchPosts st)) = user st ∨ user (exec R (fetchPosts st)) = None.
Proof.
  unfold fetchPosts. destruct (sessionToken (user st)); simpl.
  - destruct (R _ (getPosts s)); simpl; [by left|].
    unfold fetchPosts_catch. destruct (is401 e); simpl; auto.
  - by left.
Qed.

(** ** Local rejections *)

Lemma sessionToken_None (st : HomeState) :
  user st = None
  ∨ (∃ u, user st = Some u ∧ (user_token u = None ∨ user_token u = Some "")) →
  sessionToken (user st) = None.
Proof.
  intros [-> | [u [-> [H | H]]]]; simpl; by rewrite ?H.
Qed.

(** C3.  When the session has no token or an empty one, [fetchPosts] sends
    no request: it raises the error "No authentication token found. Please
    log in.", which its [catch] block logs, and it leaves [posts] (and the
    session) as they were; the renders that follow leave [posts] alone
    too. *)
Theorem refresh_without_token_fails_locally (st : HomeState) :
  user st = None
  ∨ (∃ u, user st = Some u ∧ (user_token u = None ∨ user_token u = Some "")) →
  sent (fetchPosts st) = []
  ∧ ∀ R : Remote,
      console (exec R (fetchPosts st))
        = (console st ++ [("Failed to load posts:", noTokenError)])%list
      ∧ error (exec R (fetchPosts st)) = "Failed to load posts. Please try again later."
      ∧ posts (exec R (fetchPosts st)) = posts st
      ∧ user (exec R (fetchPosts st)) = user st
      ∧ posts (dispatch R fetchPosts st) = posts st.
Proof.
  intros H%sessionToken_None. unfold dispatch, fetchPosts. rewrite H.
  split; [done|]. intros R. simpl.
  repeat split. by rewrite afterRender_same_user.
Qed.

(** C9.  When the draft of a post is empty or white space only,
    [handleCommentSubmit] returns at once: it sends no request and the
    state, [posts] included, is the one it started from, also after the
    renders that follow. *)
Theorem blank_comment_is_not_sent (st : HomeState) (postId : JsVal) (text : string) :
  draft postId st = Some text →
  isBlank text →
  handleCommentSubmit postId st = Ret st
  ∧ sent (handleCommentSubmit postId st) = []
  ∧ ∀ R : Remote, posts (dispatch R (handleCommentSubmit postId) st) = posts st.
Proof.
  intros Hd Hb%trim_blank.
  assert (E : handleCommentSubmit postId st = Ret st).
  { unfold handleCommentSubmit. rewrite Hd, Hb. by destruct (user st). }
  unfold dispatch. rewrite E. repeat split.
  intros R. simpl. by rewrite afterRender_same_user.
Qed.

(** A post that has no draft is not submitted either. *)
Lemma absent_comment_is_not_sent (st : HomeState) (postId : JsVal) :
  draft postId st = None → handleCommentSubmit postId st = Ret st.
Proof. intros Hd. unfold handleCommentSubmit. rewrite Hd. by destruct (user st). Qed.

(** Conversely a draft with a visible character is sent when a user is
    logged in: the guard rejects the blank drafts only. *)
Lemma visible_comment_is_sent (st : HomeState) (postId : JsVal) (text : string) (u : User) :
  user st = Some u → draft postId st = Some text → ¬ isBlank text →
  sent (handleCommentSubmit postId st)
  = [existT _ (commentOnPost postId text (user_token u))].
Proof.
  intros Hu Hd Hb. unfold handleCommentSubmit. rewrite Hu, Hd.
  destruct (truthy (trim text)) eqn:E; [done|].
  apply truthy_false, trim_empty in E. contradiction.
Qed.

(** ** Failed requests *)

Lemma failure_exec (R : Remote) (p : Prog) (err : JsError) :
  failure R p = Some err →
  ∃ (A : Type) (rq : Request A) (k : Outcome A → HomeState),
    p = Await rq k ∧ R A rq = Rejected err ∧ exec R p = k (Rejected err).
Proof.
  destruct p as [st | A rq k]; simpl; [done|].
  destruct (R A rq) as [a | e] eqn:E; [done|].
  intros [= ->]. exists A, rq, k. by rewrite E.
Qed.

Lemma is401_false (err : JsError) :
  response_status err ≠ Some 401%Z → is401 err = false.
Proof. intros H. unfold is401. by apply bool_decide_eq_false_2. Qed.

Lemma is401_true (err : JsError) :
  response_status err = Some 401%Z → is401 err = true.
Proof. intros H. unfold is401. by apply bool_decide_eq_true_2. Qed.

(** Unfolds a handler and splits on the guards in front of its request. *)
Ltac open_handler :=
  unfold handler, fetchPosts, handleCommentSubmit, handleCommentUpdate,
    handleCommentDelete, handleReaction, handleFollowPost in *;
  repeat case_match; simpl in *; try discriminate.

(** Rewrites with the outcome of the request that failed. *)
Ltac use_failure :=
  repeat match goal with
    | H : match ?o with Resolved _ => None | Rejected e => Some e end = Some _ |- _ =>
        destruct o eqn:?; [discriminate | injection H as ->]
    end.

(** A request is only sent for a logged-in user. *)
Lemma request_needs_user (R : Remote) (op : RemoteOp) (st : HomeState) (err : JsError) :
  failure R (handler op st) = Some err → user st ≠ None.
Proof.
  intros H Hu. destruct op; open_handler; try congruence.
  unfold sessionToken in *. by rewrite Hu in *.
Qed.

(** What a handler leaves when its request is rejected without a 401. *)
Lemma failed_request_state (R : Remote) (op : RemoteOp) (st : HomeState) (err : JsError) :
  failure R (handler op st) = Some err →
  response_status err ≠ Some 401%Z →
  user (exec R (handler op st)) = user st
  ∧ posts (exec R (handler op st)) = posts st.
Proof.
  intros H Hne%is401_false.
  destruct op; open_handler; use_failure;
    unfold catch401, fetchPosts_catch; rewrite ?Hne; done.
Qed.

(** What a handler leaves when its request is rejected with a 401. *)
Lemma expired_request_state (R : Remote) (op : RemoteOp) (st : HomeState) (err : JsError) :
  failure R (handler op st) = Some err →
  response_status err = Some 401%Z →
  let st' := exec R (handler op st) in
  user st' = None ∧ showAuthForm st' = true ∧ isLogin st' = true
  ∧ error st' = "Session expired. Please log in again.".
Proof.
  intros H H401%is401_true.
  destruct op; open_handler; use_failure;
    unfold catch401, fetchPosts_catch; rewrite ?H401; done.
Qed.

(** C4.  When the request of one of the five mutations is rejected with
    anything but a 401, [posts] is what it was before the handler ran, and
    stays so through the renders that follow: nothing is written before the
    request, and the [catch] block does not touch [posts]. *)
Theorem failed_mutation_leaves_posts
    (R : Remote) (op : RemoteOp) (st : HomeState) (err : JsError) :
  isMutation op = true →
  failure R (handler op st) = Some err →
  response_status err ≠ Some 401%Z →
  posts (exec R (handler op st)) = posts st
  ∧ posts (dispatch R (handler op) st) = posts st.
Proof.
  intros _ H Hne.
  destruct (failed_request_state R op st err H Hne) as [Hu Hp].
  split; [exact Hp|].
  unfold dispatch. by rewrite afterRender_same_user, posts_filterEffect.
Qed.

(** C1.  When the request of any of the six operations is rejected with
    status 401, then after the handler and the renders it causes there is
    no user in the context, the login form is open ([showAuthForm] and
    [isLogin] are set) and [posts] is the empty sequence. *)
Theorem expired_session_clears_everything
    (R : Remote) (op : RemoteOp) (st : HomeState) (err : JsError) :
  failure R (handler op st) = Some err →
  response_status err = Some 401%Z →
  let st' := dispatch R (handler op) st in
  user st' = None ∧ showAuthForm st' = true ∧ isLogin st' = true ∧ posts st' = [].
Proof.
  intros H H401.
  destruct (expired_request_state R op st err H H401) as (Hu & Hs & Hl & _).
  pose proof (request_needs_user R op st err H) as Hprev.
  cbv zeta. unfold dispatch. rewrite afterRender_logged_out by done.
  by repeat split.
Qed.

(** ** Editing a comment *)

(** The guard the code has on editing.  The comparison of the caller's id
    with the author's id, both as strings, is made on entry into edit mode: for a
    caller whose id differs, [startEditingComment] changes nothing, and
    unless that comment was in edit mode already no Update button is
    rendered for it, so that no request is sent and [posts] stays as it
    was. *)
Theorem non_author_cannot_enter_edit_mode
    (st : HomeState) (u : User) (postId : JsVal) (comment : Comment) :
  user st = Some u →
  js_String (user_id u) ≠ js_String (ref_id (comment_user comment)) →
  editingCommentId st ≠ Some (comment_id comment) →
  startEditingComment comment st = st
  ∧ sent (clickUpdate postId comment (startEditingComment comment st)) = []
  ∧ ∀ R : Remote,
      posts (dispatch R (clickUpdate postId comment) (startEditingComment comment st))
      = posts st.
Proof.
  intros Hu Hne Hed.
  assert (E : startEditingComment comment st = st).
  { unfold startEditingComment. rewrite Hu. by rewrite bool_decide_eq_false_2. }
  assert (E' : clickUpdate postId comment st = Ret st).
  { unfold clickUpdate, rendersUpdateButton. by rewrite bool_decide_eq_false_2. }
  rewrite E. unfold dispatch. rewrite E'. repeat split.
  intros R. simpl. by rewrite afterRender_same_user.
Qed.

(** C2, at the input where the code fails it.  The first user opened
    the edit box of her own comment, then the session changed to the second
    user.  The ids differ, the Update button is still rendered, and
    [handleCommentUpdate] sends [updateComment] with the second user's
    token instead of rejecting locally; the post the service resolves to
    replaces the stored one, so the feed is changed as well.
    [startEditingComment] and the render of the pencil button compare the
    ids; [handleCommentUpdate] does not. *)
Lemma update_by_non_author_is_sent :
  user bobTakesOver = Some bob
  ∧ js_String (user_id bob) ≠ js_String (ref_id (comment_user firstComment))
  ∧ rendersUpdateButton firstComment bobTakesOver = true
  ∧ sent (handleCommentUpdate (Num 1) (Num 10) bobTakesOver)
    = [existT _ (updateComment (Num 1) (Num 10) "edited" (Some "token-bob"))]
  ∧ posts bobTakesOver = [artPost; cookingPost]
  ∧ posts (dispatch servingRemote (handleCommentUpdate (Num 1) (Num 10)) bobTakesOver)
    = [artPostEdited; cookingPost].
Proof. repeat split. by vm_compute. Qed.

(** * The theorems at concrete inputs *)

Lemma non_author_cannot_enter_edit_mode_witness :
  user (loaded bob) = Some bob
  ∧ js_String (user_id bob) ≠ js_String (ref_id (comment_user firstComment))
  ∧ editingCommentId (loaded bob) ≠ Some (comment_id firstComment)
  ∧ startEditingComment firstComment (loaded bob) = loaded bob
  ∧ sent (clickUpdate (Num 1) firstComment
            (startEditingComment firstComment (loaded bob))) = [].
Proof.
  assert (H1 : user (loaded bob) = Some bob) by reflexivity.
  assert (H2 : js_String (user_id bob) ≠ js_String (ref_id (comment_user firstComment)))
    by (vm_compute; discriminate).
  assert (H3 : editingCommentId (loaded bob) ≠ Some (comment_id firstComment))
    by (vm_compute; discriminate).
  destruct (non_author_cannot_enter_edit_mode (loaded bob) bob (Num 1) firstComment
              H1 H2 H3) as (E1 & E2 & _).
  repeat split; assumption.
Defined.

Lemma refresh_without_token_fails_locally_witness :
  user (initialState None) = None
  ∧ sent (fetchPosts (initialState None)) = []
  ∧ posts (dispatch (failingRemote (Some 401%Z)) fetchPosts (initialState None)) = [].
Proof.
  assert (H : user (initialState None) = None
              ∨ (∃ u, user (initialState None) = Some u
                      ∧ (user_token u = None ∨ user_token u = Some "")))
    by (left; reflexivity).
  destruct (refresh_without_token_fails_locally (initialState None) H) as [E1 E2].
  destruct (E2 (failingRemote (Some 401%Z))) as (_ & _ & _ & _ & E3).
  repeat split; assumption.
Defined.

Lemma failed_mutation_leaves_posts_witness :
  isMutation (toggleReaction (Num 1) "LIKE") = true
  ∧ failure (failingRemote (Some 500%Z))
      (handler (toggleReaction (Num 1) "LIKE") (loaded alice))
    = Some {| message := "Request failed"; response_status := Some 500%Z |}
  ∧ posts (dispatch (failingRemote (Some 500%Z))
             (handler (toggleReaction (Num 1) "LIKE")) (loaded alice))
    = scenarioPosts.
Proof.
  split; [reflexivity|]. split; [reflexivity|].
  apply (failed_mutation_leaves_posts (failingRemote (Some 500%Z))
           (toggleReaction (Num 1) "LIKE") (loaded alice)
           {| message := "Request failed"; response_status := Some 500%Z |}).
  - reflexivity.
  - reflexivity.
  - simpl. discriminate.
Defined.

Lemma expired_session_clears_everything_witness :
  failure (failingRemote (Some 401%Z)) (handler (follow (Num 1) (Num 1)) (loaded bob))
    = Some {| message := "Request failed"; response_status := Some 401%Z |}
  ∧ user (dispatch (failingRemote (Some 401%Z)) (handler (follow (Num 1) (Num 1)))
            (loaded bob)) = None
  ∧ posts (dispatch (failingRemote (Some 401%Z)) (handler (follow (Num 1) (Num 1)))
             (loaded bob)) = [].
Proof.
  split; [reflexivity|].
  destruct (expired_session_clears_everything (failingRemote (Some 401%Z))
              (follow (Num 1) (Num 1)) (loaded bob)
              {| message := "Request failed"; response_status := Some 401%Z |}
              eq_refl eq_refl) as (E1 & _ & _ & E2).
  split; assumption.
Defined.

Lemma patch_replaces_in_place_witness :
  scenarioPosts !! 0%nat = Some artPost
  ∧ patch (Num 1) artPostEdited scenarioPosts !! 0%nat = Some artPostEdited.
Proof.
  split; [reflexivity|].
  by apply (patch_replaces_in_place scenarioPosts (Num 1) artPostEdited 0 artPost).
Defined.

Lemma filter_keeps_exactly_the_matching_posts_witness :
  "Music" ≠ "All"
  ∧ applyFilters "Music" "" scenarioPosts = List.filter (specKeeps "Music" "") scenarioPosts.
Proof.
  assert (H : "Music" ≠ "All") by discriminate.
  split; [exact H|].
  apply (filter_keeps_exactly_the_matching_posts scenarioPosts "Music" "" H).
Defined.

Lemma blank_comment_is_not_sent_witness :
  draft (Num 1) blankDraft = Some "   "
  ∧ isBlank "   "
  ∧ handleCommentSubmit (Num 1) blankDraft = Ret blankDraft.
Proof.
  assert (H1 : draft (Num 1) blankDraft = Some "   ") by (vm_compute; reflexivity).
  assert (H2 : isBlank "   ") by reflexivity.
  split; [exact H1|]. split; [exact H2|].
  apply (blank_comment_is_not_sent blankDraft (Num 1) "   " H1 H2).
Defined.

Lemma untagged_post_matches_no_tag_witness :
  tags untaggedPost = None
  ∧ untaggedPost ∉ applyFilters "Music" "" (untaggedPost :: scenarioPosts).
Proof.
  split; [reflexivity|].
  apply (untagged_post_matches_no_tag (untaggedPost :: scenarioPosts) untaggedPost
           (or_introl eq_refl)).
  discriminate.
Defined.

(** ** Checks on concrete values *)

Example trim_ex : trim "  Music " = "Music" ∧ trim " 	 " = "" ∧ trim "a b" = "a b".
Proof. repeat split; reflexivity. Qed.

Example split_ex :
  split "," "Art, Music" = ["Art"; " Music"] ∧ split "," "" = [""] ∧
  split "," "a," = ["a"; ""].
Proof. repeat split; reflexivity. Qed.

Example includes_ex :
  includes "hello world" "lo w" = true ∧ includes "abc" "" = true ∧
  includes "abc" "bd" = false ∧ toLowerCase "HeLLo-1" = "hello-1".
Proof. repeat split; reflexivity. Qed.

Example js_String_ex : js_String (Num 5) = js_String (Str "5").
Proof. reflexivity. Qed.

(** The specification's scenario: selecting "Music" keeps the first post. *)
Example scenario_Music : applyFilters "Music" "" scenarioPosts = [artPost].
Proof. by vm_compute. Qed.

(** The search text is trimmed and lower-cased before it is looked for. *)
Example scenario_search : applyFilters "All" "  INK " scenarioPosts = [artPost].
Proof. by vm_compute. Qed.

Example scenario_reacted :
  hasUserReacted (Some bob) artPost "LIKE" = Some true
  ∧ hasUserReacted (Some bob) artPost "LOVE" = Some false
  ∧ hasUserReacted (Some bob) cookingPost "LIKE" = None
  ∧ getReactionCount artPost "LIKE" = 1%nat.
Proof. by vm_compute. Qed.

(** Deleting a comment of a post that carries no comment list raises a
    [TypeError] inside the [try]; the state keeps its posts. *)
Example scenario_delete :
  posts (exec servingRemote (handleCommentDelete (Num 1) (Num 10) (loaded alice)))
  = [set_comments (Some []) artPost; cookingPost]
  ∧ posts (exec servingRemote (handleCommentDelete (Num 2) (Num 10) (loaded alice)))
    = scenarioPosts.
Proof. by vm_compute. Qed.

(** * Further properties of the page *)

(** ** The tag menu *)

Lemma setAddAll_elem (set l : list string) (x : string) :
  x ∈ setAddAll set l ↔ x ∈ set ∨ x ∈ l.
Proof.
  revert set. induction l as [|y l IH]; intros set; simpl.
  - rewrite elem_of_nil. tauto.
  - rewrite IH, elem_of_cons. case_bool_decide as Hy.
    + split; [tauto|]. intros [H | [-> | H]]; auto.
    + rewrite elem_of_app, list_elem_of_singleton. tauto.
Qed.

Lemma setAddAll_NoDup (set l : list string) :
  NoDup set → NoDup (setAddAll set l).
Proof.
  revert set. induction l as [|y l IH]; intros set Hset; simpl; [done|].
  apply IH. case_bool_decide as Hy; [done|].
  apply NoDup_app. split; [done|]. split.
  - intros x Hx ->%list_elem_of_singleton. contradiction.
  - apply NoDup_singleton.
Qed.

Lemma hasSelectedTag_postTags (T : string) (post : Post) :
  hasSelectedTag T post = true ↔ T ∈ postTags post.
Proof.
  unfold hasSelectedTag, postTags. destruct (tags post) as [s|].
  - destruct (truthy s); simpl.
    + apply bool_decide_eq_true.
    + rewrite elem_of_nil. split; [done | tauto].
  - rewrite elem_of_nil. split; [done | tauto].
Qed.

Lemma elem_of_allTags (ps : list Post) (t : string) :
  t ∈ flat_map postTags ps ↔ ∃ post, post ∈ ps ∧ hasSelectedTag t post = true.
Proof.
  rewrite list_elem_of_In, List.in_flat_map. split.
  - intros [post [H1 H2]]. exists post.
    by rewrite list_elem_of_In, hasSelectedTag_postTags, list_elem_of_In.
  - intros [post [H1 H2]]. exists post.
    by rewrite <- !list_elem_of_In, <- hasSelectedTag_postTags.
Qed.

(** The tag menu is "All" followed by the tags of the posts, each once:
    a tag is listed after "All" exactly when the tag test of the filter
    accepts some post for it. *)
Theorem getUniqueTags_lists_each_tag_once (ps : list Post) :
  ∃ rest : list string,
    getUniqueTags ps = "All" :: rest
    ∧ NoDup rest
    ∧ ∀ t, t ∈ rest ↔ ∃ post, post ∈ ps ∧ hasSelectedTag t post = true.
Proof.
  exists (setAddAll [] (flat_map postTags ps)). split; [done|]. split.
  - apply setAddAll_NoDup, NoDup_nil_2.
  - intros t. rewrite setAddAll_elem, elem_of_nil, elem_of_allTags. tauto.
Qed.

Lemma filter_nonempty {A : Type} (f : A → bool) (l : list A) :
  List.filter f l ≠ [] ↔ ∃ x, x ∈ l ∧ f x = true.
Proof.
  split.
  - destruct (List.filter f l) as [|x r] eqn:E; [done|]. intros _.
    exists x. rewrite list_elem_of_In, <- List.filter_In, E. by left.
  - intros [x [H1 H2]] E.
    assert (Hin : List.In x (List.filter f l)).
    { apply List.filter_In. by rewrite <- list_elem_of_In. }
    by rewrite E in Hin.
Qed.

(** A tag other than "All" is in the menu exactly when selecting it
    leaves at least one post: the menu offers no tag that empties the
    list, and misses no tag that would show a post. *)
Theorem menu_tag_iff_some_post_is_shown (ps : list Post) (T : string) :
  T ≠ "All" →
  T ∈ getUniqueTags ps ↔ tagFilter T ps ≠ [].
Proof.
  intros HT. unfold getUniqueTags, tagFilter. cbv zeta.
  rewrite (bool_decide_eq_true_2 _ HT), filter_nonempty.
  rewrite elem_of_cons, setAddAll_elem, elem_of_nil, elem_of_allTags.
  split; [intros [? | [[] | H]]; done | auto].
Qed.

Lemma menu_tag_iff_some_post_is_shown_witness :
  "Music" ≠ "All"
  ∧ ("Music" ∈ getUniqueTags scenarioPosts ↔ tagFilter "Music" scenarioPosts ≠ []).
Proof.
  assert (H : "Music" ≠ "All") by discriminate.
  split; [exact H|].
  apply (menu_tag_iff_some_post_is_shown scenarioPosts "Music" H).
Defined.

(** ** The filter, algebraically *)

Lemma applyFilters_as_filter (T Q : string) (P : list Post) :
  applyFilters T Q P = List.filter (passesFilters T Q) P.
Proof.
  unfold applyFilters, tagFilter, searchFilter, passesFilters. cbv zeta.
  destruct (bool_decide (T ≠ "All")), (truthy (trim Q)); simpl.
  - apply filter_twice.
  - apply List.filter_ext. intros p. by rewrite andb_true_r.
  - done.
  - induction P as [|p P IH]; simpl; [done | by rewrite <- IH].
Qed.

Lemma filter_sublist {A : Type} (f : A → bool) (l : list A) :
  sublist (List.filter f l) l.
Proof.
  induction l as [|x l IH]; simpl; [constructor|].
  destruct (f x); by constructor.
Qed.

(** Whatever the tag and the search text, the output of the filter is a
    sub-sequence of the posts: no post is invented or repeated, the order
    is kept, and the output is no longer than the feed. *)
Theorem filter_output_is_a_subsequence (T Q : string) (P : list Post) :
  sublist (applyFilters T Q P) P
  ∧ (length (applyFilters T Q P) ≤ length P)%nat.
Proof.
  assert (H : sublist (applyFilters T Q P) P).
  { rewrite applyFilters_as_filter. apply filter_sublist. }
  split; [exact H | by apply sublist_length].
Qed.

(** Filtering an output again with the same tag and search text changes
    nothing. *)
Theorem filter_is_idempotent (T Q : string) (P : list Post) :
  applyFilters T Q (applyFilters T Q P) = applyFilters T Q P.
Proof.
  rewrite !applyFilters_as_filter, filter_twice.
  apply List.filter_ext. intros p. by destruct (passesFilters T Q p).
Qed.

(** The tag test and the search test can be applied in either order. *)
Theorem filter_stages_commute (T Q : string) (P : list Post) :
  tagFilter T (searchFilter Q P) = searchFilter Q (tagFilter T P).
Proof.
  unfold tagFilter, searchFilter. cbv zeta.
  destruct (bool_decide (T ≠ "All")), (truthy (trim Q)); try done.
  rewrite !filter_twice. apply List.filter_ext. intros p. apply andb_comm.
Qed.

Lemma toLowerCase_empty (s : string) : toLowerCase s = "" ↔ s = "".
Proof. by destruct s. Qed.

(** The search does not see the case of the search text nor the white
    space around it: two texts that agree once trimmed and lower-cased give
    the same output. *)
Theorem search_ignores_case_and_outer_space (T Q1 Q2 : string) (P : list Post) :
  toLowerCase (trim Q1) = toLowerCase (trim Q2) →
  applyFilters T Q1 P = applyFilters T Q2 P.
Proof.
  intros H. unfold applyFilters, searchFilter. cbv zeta.
  rewrite !trim_toLowerCase, H.
  assert (E : truthy (trim Q1) = truthy (trim Q2)).
  { destruct (trim Q1), (trim Q2); done. }
  by rewrite E.
Qed.

Lemma search_ignores_case_and_outer_space_witness :
  toLowerCase (trim "  INK ") = toLowerCase (trim "ink")
  ∧ applyFilters "All" "  INK " scenarioPosts = applyFilters "All" "ink" scenarioPosts.
Proof.
  assert (H : toLowerCase (trim "  INK ") = toLowerCase (trim "ink")) by reflexivity.
  split; [exact H|].
  apply (search_ignores_case_and_outer_space "All" "  INK " "ink" scenarioPosts H).
Defined.

(** ** Following an author *)

Lemma filter_map_commute {A : Type} (f : A → bool) (g : A → A) (l : list A) :
  (∀ x, f (g x) = f x) →
  List.filter f (map g l) = map g (List.filter f l).
Proof.
  intros Hfg. induction l as [|x l IH]; simpl; [done|].
  rewrite Hfg. destruct (f x); simpl; by rewrite IH.
Qed.

Lemma patchFollowers_lookup (postId : JsVal) (fs : option (list JsVal))
    (ps : list Post) (i : nat) :
  patchFollowers postId fs ps !! i
  = (fun p => if strictEq (post_id p) postId
              then set_post_user (Some (withFollowers fs (post_user p))) p
              else p) <$> ps !! i.
Proof.
  unfold patchFollowers. revert i.
  induction ps as [|q ps IH]; intros [|i]; simpl; auto.
Qed.

(** [patchFollowers] touches the follower list of the author of the
    posts with the given id and nothing else: the sequence keeps its
    length, every post keeps its id, texts, tags, comments and reactions,
    a post with another id is kept whole, and on a post with the id the
    author keeps id and name (an absent author becomes one with no id and
    no name) and gets the new followers. *)
Theorem patchFollowers_changes_followers_only
    (ps : list Post) (postId : JsVal) (fs : option (list JsVal)) (i : nat) (p : Post) :
  ps !! i = Some p →
  length (patchFollowers postId fs ps) = length ps
  ∧ ∃ p', patchFollowers postId fs ps !! i = Some p'
      ∧ p' = set_post_user (post_user p') p
      ∧ (post_id p ≠ postId → p' = p)
      ∧ (post_id p = postId →
         ∃ r, post_user p' = Some r
              ∧ ref_followers r = fs
              ∧ ref_id r = authorId p
              ∧ ref_username r = (post_user p ≫= ref_username)).
Proof.
  intros Hi. split; [unfold patchFollowers; apply length_map|].
  rewrite patchFollowers_lookup, Hi. simpl. unfold strictEq.
  case_bool_decide as Hid.
  - eexists. split; [done|]. split; [done|]. split; [done|]. intros _.
    eexists. split; [done|]. unfold authorId. by destruct (post_user p).
  - exists p. split; [done|]. split; [by destruct p|]. split; [done | done].
Qed.

Lemma patchFollowers_changes_followers_only_witness :
  scenarioPosts !! 1%nat = Some cookingPost
  ∧ length (patchFollowers (Num 2) (Some [Num 1]) scenarioPosts) = length scenarioPosts.
Proof.
  split; [reflexivity|].
  by apply (patchFollowers_changes_followers_only scenarioPosts (Num 2) (Some [Num 1])
              1 cookingPost).
Defined.

Lemma passesFilters_followers (T Q : string) (fs : option (list JsVal)) (p : Post) :
  passesFilters T Q (set_post_user (Some (withFollowers fs (post_user p))) p)
  = passesFilters T Q p.
Proof. reflexivity. Qed.

(** Following does not change which posts are shown: filtering the
    patched feed gives the patched output of the filter. *)
Theorem follow_patch_commutes_with_filter
    (T Q : string) (postId : JsVal) (fs : option (list JsVal)) (ps : list Post) :
  applyFilters T Q (patchFollowers postId fs ps)
  = patchFollowers postId fs (applyFilters T Q ps).
Proof.
  rewrite !applyFilters_as_filter. unfold patchFollowers.
  apply filter_map_commute. intros p.
  destruct (strictEq (post_id p) postId); [apply passesFilters_followers | done].
Qed.

(** ** Deleting a comment *)

Lemma removeComment_mapM (postId commentId : JsVal) (ps : list Post) :
  removeComment postId commentId ps = mapM (withoutComment postId commentId) ps.
Proof. reflexivity. Qed.

(** The update of [posts] after a delete throws exactly when a post with
    the given id carries no comment list. *)
Lemma removeComment_None (postId commentId : JsVal) (ps : list Post) :
  removeComment postId commentId ps = None
  ↔ ∃ p, p ∈ ps ∧ post_id p = postId ∧ comments p = None.
Proof.
  rewrite removeComment_mapM, eq_None_not_Some, mapM_is_Some, <- Exists_Forall_neg.
  - rewrite Exists_exists. unfold withoutComment, strictEq. split.
    + intros [p [Hin Hp]]. exists p. split; [done|]. simpl in Hp.
      case_bool_decide; [|by destruct Hp]. destruct (comments p); [by destruct Hp | done].
    + intros [p [Hin [Hid Hc]]]. exists p. split; [done|]. simpl.
      rewrite bool_decide_eq_true_2, Hc by done. by intros [? ?].
  - intros p. simpl. destruct (withoutComment postId commentId p) as [q|].
    + left. by exists q.
    + right. by intros [? ?].
Qed.

Lemma removeComment_lookup (postId commentId : JsVal) (ps ps' : list Post) (i : nat) (p : Post) :
  removeComment postId commentId ps = Some ps' →
  ps !! i = Some p →
  ∃ p', ps' !! i = Some p' ∧ withoutComment postId commentId p = Some p'.
Proof.
  rewrite removeComment_mapM, mapM_Some. intros HF Hi.
  destruct (Forall2_lookup_l _ _ _ _ _ HF Hi) as [p' [H1 H2]]. by exists p'.
Qed.

Lemma filter_keeps_order {A : Type} (f : A → bool) (l : list A) (x : A) :
  x ∈ List.filter f l ↔ x ∈ l ∧ f x = true.
Proof. rewrite !list_elem_of_In. apply List.filter_In. Qed.

(** A successful delete whose update of [posts] goes through: the feed
    keeps its length; a post with another id is kept whole; a post with
    the id differs in its comments only, which are the former ones without
    those of the deleted id, in their order.  Whatever comment was being
    edited, the edit box is closed, and the edited text is kept. *)
Theorem delete_removes_the_comment_only
    (R : Remote) (st : HomeState) (u : User) (postId commentId : JsVal)
    (ps' : list Post) :
  user st = Some u →
  R _ (deleteComment commentId (user_token u)) = Resolved tt →
  removeComment postId commentId (posts st) = Some ps' →
  posts (exec R (handleCommentDelete postId commentId st)) = ps'
  ∧ editingCommentId (exec R (handleCommentDelete postId commentId st)) = None
  ∧ editedCommentText (exec R (handleCommentDelete postId commentId st))
    = editedCommentText st
  ∧ length ps' = length (posts st)
  ∧ ∀ i p, posts st !! i = Some p →
      ∃ p', ps' !! i = Some p'
        ∧ p' = set_comments (comments p') p
        ∧ (post_id p ≠ postId → p' = p)
        ∧ (post_id p = postId →
           ∃ cs cs', comments p = Some cs ∧ comments p' = Some cs'
             ∧ sublist cs' cs
             ∧ ∀ c, c ∈ cs' ↔ c ∈ cs ∧ comment_id c ≠ commentId).
Proof.
  intros Hu HR Hrm. unfold handleCommentDelete. rewrite Hu. simpl. rewrite HR, Hrm.
  repeat split.
  - symmetry. rewrite removeComment_mapM in Hrm. by eapply length_mapM.
  - intros i p Hi.
    destruct (removeComment_lookup _ _ _ _ _ _ Hrm Hi) as [p' [H1 H2]].
    exists p'. split; [done|]. unfold withoutComment, strictEq in H2.
    case_bool_decide as Hid.
    + destruct (comments p) as [cs|] eqn:Hc; [|done]. injection H2 as <-.
      split; [done|]. split; [done|]. intros _.
      eexists _, _. split; [done|]. split; [done|]. split; [apply filter_sublist|].
      intros c. rewrite filter_keeps_order, negb_true_iff, bool_decide_eq_false. tauto.
    + injection H2 as <-. split; [by destruct p|]. split; [done | done].
Qed.

Lemma delete_removes_the_comment_only_witness :
  user (loaded alice) = Some alice
  ∧ posts (exec servingRemote (handleCommentDelete (Num 1) (Num 10) (loaded alice)))
    = [set_comments (Some []) artPost; cookingPost].
Proof.
  split; [reflexivity|].
  apply (delete_removes_the_comment_only servingRemote (loaded alice) alice
           (Num 1) (Num 10) [set_comments (Some []) artPost; cookingPost]);
    reflexivity.
Defined.

(** A delete that the service accepts, on a post id whose post carries no
    comment list: the update of [posts] throws inside the [try], so the
    page keeps its posts and its edit state and only logs the error,
    although the comment is deleted remotely. *)
Theorem delete_on_post_without_comment_list
    (R : Remote) (st : HomeState) (u : User) (postId commentId : JsVal) (p : Post) :
  user st = Some u →
  R _ (deleteComment commentId (user_token u)) = Resolved tt →
  p ∈ posts st → post_id p = postId → comments p = None →
  sent (handleCommentDelete postId commentId st)
  = [existT _ (deleteComment commentId (user_token u))]
  ∧ exec R (handleCommentDelete postId commentId st)
    = console_error "Failed to delete comment:" typeError st.
Proof.
  intros Hu HR Hin Hid Hc.
  assert (Hrm : removeComment postId commentId (posts st) = None).
  { apply removeComment_None. by exists p. }
  unfold handleCommentDelete. rewrite Hu. simpl. by rewrite HR, Hrm.
Qed.

Lemma delete_on_post_without_comment_list_witness :
  user (loaded alice) = Some alice
  ∧ cookingPost ∈ posts (loaded alice)
  ∧ posts (exec servingRemote (handleCommentDelete (Num 2) (Num 10) (loaded alice)))
    = scenarioPosts.
Proof.
  assert (Hin : cookingPost ∈ posts (loaded alice)).
  { apply list_elem_of_In. right. left. reflexivity. }
  split; [reflexivity|]. split; [exact Hin|].
  destruct (delete_on_post_without_comment_list servingRemote (loaded alice) alice
              (Num 2) (Num 10) cookingPost eq_refl eq_refl Hin eq_refl eq_refl)
    as [_ E].
  by rewrite E.
Defined.

(** ** Operations and the session *)

(** With nobody logged in no operation sends a request and none touches
    [posts]; adding, editing, deleting and reacting leave the whole state
    as it is, following opens the login form, and the fetch reports that
    it could not load. *)
Theorem without_user_nothing_is_sent (R : Remote) (op : RemoteOp) (st : HomeState) :
  user st = None →
  sent (handler op st) = []
  ∧ posts (exec R (handler op st)) = posts st
  ∧ user (exec R (handler op st)) = None
  ∧ match op with
    | refresh =>
        error (exec R (handler op st)) = "Failed to load posts. Please try again later."
    | follow _ _ =>
        exec R (handler op st) = set_isLogin true (set_showAuthForm true st)
    | _ => exec R (handler op st) = st
    end.
Proof.
  intros Hu.
  destruct op; unfold handler, fetchPosts, handleCommentSubmit, handleCommentUpdate,
    handleCommentDelete, handleReaction, handleFollowPost; rewrite Hu; simpl; done.
Qed.

Lemma without_user_nothing_is_sent_witness :
  user (initialState None) = None
  ∧ sent (handler (follow (Num 1) (Num 1)) (initialState None)) = []
  ∧ showAuthForm (exec servingRemote (handler (follow (Num 1) (Num 1)) (initialState None)))
    = true.
Proof.
  destruct (without_user_nothing_is_sent servingRemote (follow (Num 1) (Num 1))
              (initialState None) eq_refl) as (E1 & _ & _ & E2).
  split; [reflexivity|]. split; [exact E1|]. exact (f_equal showAuthForm E2).
Defined.

(** A fetch that succeeds replaces the feed by what the service sent, in
    the order sent; the output of the filter is recomputed from it with the
    tag and search text in force; [loading] is off.  The session is
    untouched, and so is the error message: a message left by an earlier
    failure is not cleared by a later success. *)
Theorem successful_refresh_replaces_the_feed
    (R : Remote) (st : HomeState) (tok : string) (postsData : list Post) :
  sessionToken (user st) = Some tok →
  R _ (getPosts tok) = Resolved postsData →
  sent (fetchPosts st) = [existT _ (getPosts tok)]
  ∧ posts (dispatch R fetchPosts st) = postsData
  ∧ filteredPosts (dispatch R fetchPosts st)
    = applyFilters (selectedTag st) (searchQuery st) postsData
  ∧ loading (dispatch R fetchPosts st) = false
  ∧ error (dispatch R fetchPosts st) = error st
  ∧ user (dispatch R fetchPosts st) = user st.
Proof.
  intros Htok HR. unfold dispatch, fetchPosts. rewrite Htok. simpl. rewrite HR.
  by rewrite afterRender_same_user.
Qed.

Lemma successful_refresh_replaces_the_feed_witness :
  sessionToken (user (initialState (Some alice))) = Some "token-alice"
  ∧ posts (dispatch servingRemote fetchPosts (initialState (Some alice))) = scenarioPosts.
Proof.
  split; [reflexivity|].
  by apply (successful_refresh_replaces_the_feed servingRemote (initialState (Some alice))
              "token-alice" scenarioPosts).
Defined.

(** Whatever the outcome, the fetch ends with [loading] off, and no other
    operation changes [loading]. *)
Theorem loading_is_off_after_every_fetch (R : Remote) (op : RemoteOp) (st : HomeState) :
  loading (exec R (handler op st))
  = match op with
    | refresh => false
    | _ => loading st
    end.
Proof.
  destruct op; open_handler;
    unfold catch401, fetchPosts_catch, sessionExpired; repeat case_match; done.
Qed.

(** ** Failures other than a 401 *)

(** What an operation reads of the state before it sends its request. *)
Lemma sent_depends_on (op : RemoteOp) (st1 st2 : HomeState) :
  user st1 = user st2 →
  newComments st1 = newComments st2 →
  editedCommentText st1 = editedCommentText st2 →
  sent (handler op st1) = sent (handler op st2).
Proof.
  intros Hu Hn He.
  destruct op; unfold handler, fetchPosts, handleCommentSubmit, handleCommentUpdate,
    handleCommentDelete, handleReaction, handleFollowPost, draft;
    rewrite Hu, ?Hn, ?He; repeat case_match; done.
Qed.

Lemma failed_request_inputs (R : Remote) (op : RemoteOp) (st : HomeState) (err : JsError) :
  failure R (handler op st) = Some err →
  response_status err ≠ Some 401%Z →
  newComments (exec R (handler op st)) = newComments st
  ∧ editedCommentText (exec R (handler op st)) = editedCommentText st
  ∧ editingCommentId (exec R (handler op st)) = editingCommentId st.
Proof.
  intros H Hne%is401_false.
  destruct op; open_handler; use_failure;
    unfold catch401, fetchPosts_catch; rewrite ?Hne; done.
Qed.

(** After a failure that is not a 401 the operation can be repeated as it
    is: once the renders have settled, the session, the drafts, the edited
    text and the comment being edited are what they were, and invoking the
    same operation again sends the same request. *)
Theorem failed_operation_can_be_retried
    (R : Remote) (op : RemoteOp) (st : HomeState) (err : JsError) :
  failure R (handler op st) = Some err →
  response_status err ≠ Some 401%Z →
  sent (handler op (dispatch R (handler op) st)) = sent (handler op st)
  ∧ sent (handler op st) ≠ []
  ∧ editingCommentId (dispatch R (handler op) st) = editingCommentId st
  ∧ user (dispatch R (handler op) st) = user st
  ∧ newComments (dispatch R (handler op) st) = newComments st
  ∧ editedCommentText (dispatch R (handler op) st) = editedCommentText st.
Proof.
  intros H Hne.
  destruct (failed_request_state R op st err H Hne) as [Hu _].
  destruct (failed_request_inputs R op st err H Hne) as (Hn & He & Hi).
  unfold dispatch. rewrite afterRender_same_user by done.
  split; [by apply sent_depends_on|]. split; [|done].
  destruct (handler op st); [discriminate | done].
Qed.

Lemma failed_operation_can_be_retried_witness :
  failure (failingRemote None) (handler (editComment (Num 1) (Num 10)) aliceEditing)
    = Some {| message := "Request failed"; response_status := None |}
  ∧ sent (handler (editComment (Num 1) (Num 10))
            (dispatch (failingRemote None) (handler (editComment (Num 1) (Num 10)))
               aliceEditing))
    = [existT _ (updateComment (Num 1) (Num 10) "edited" (Some "token-alice"))].
Proof.
  split; [reflexivity|].
  destruct (failed_operation_can_be_retried (failingRemote None)
              (editComment (Num 1) (Num 10)) aliceEditing
              {| message := "Request failed"; response_status := None |}
              eq_refl ltac:(discriminate)) as [E _].
  by rewrite E.
Defined.

(** What a failure that is not a 401 shows: the error is logged under
    the label of the operation; the fetch and the follow set a message,
    while adding, editing, deleting and reacting keep whatever message
    there was; the login form is not touched. *)
Theorem failed_operation_report
    (R : Remote) (op : RemoteOp) (st : HomeState) (err : JsError) :
  failure R (handler op st) = Some err →
  response_status err ≠ Some 401%Z →
  console (exec R (handler op st)) = (console st ++ [(failureLabel op, err)])%list
  ∧ error (exec R (handler op st)) = failureMessage op st
  ∧ showAuthForm (exec R (handler op st)) = showAuthForm st
  ∧ isLogin (exec R (handler op st)) = isLogin st.
Proof.
  intros H Hne%is401_false.
  destruct op; open_handler; use_failure;
    unfold catch401, fetchPosts_catch; rewrite ?Hne; done.
Qed.

Lemma failed_operation_report_witness :
  failure (failingRemote (Some 500%Z)) (handler (toggleReaction (Num 1) "LOVE") (loaded bob))
    = Some {| message := "Request failed"; response_status := Some 500%Z |}
  ∧ error (exec (failingRemote (Some 500%Z))
             (handler (toggleReaction (Num 1) "LOVE") (loaded bob))) = "".
Proof.
  split; [reflexivity|].
  destruct (failed_operation_report (failingRemote (Some 500%Z))
              (toggleReaction (Num 1) "LOVE") (loaded bob)
              {| message := "Request failed"; response_status := Some 500%Z |}
              eq_refl ltac:(discriminate)) as (_ & E & _).
  by rewrite E.
Defined.

(** ** After a 401 *)

(** Once a request was rejected with a 401, no operation sends anything
    until the context has a user again. *)
Theorem after_expiry_nothing_is_sent
    (R : Remote) (op next : RemoteOp) (st : HomeState) (err : JsError) :
  failure R (handler op st) = Some err →
  response_status err = Some 401%Z →
  sent (handler next (dispatch R (handler op) st)) = []
  ∧ filteredPosts (dispatch R (handler op) st) = []
  ∧ error (dispatch R (handler op) st) = "Session expired. Please log in again.".
Proof.
  intros H H401.
  destruct (expired_request_state R op st err H H401) as (Hu & _ & _ & He).
  pose proof (request_needs_user R op st err H) as Hprev.
  unfold dispatch. rewrite afterRender_logged_out by done.
  remember (exec R (handler op st)) as st' eqn:Est. clear Est.
  split; [|split].
  - destruct next; unfold handler, fetchPosts, handleCommentSubmit, handleCommentUpdate,
      handleCommentDelete, handleReaction, handleFollowPost; simpl; rewrite Hu; done.
  - unfold filterEffect, applyFilters, tagFilter, searchFilter. simpl.
    by repeat case_match.
  - done.
Qed.

Lemma after_expiry_nothing_is_sent_witness :
  failure (failingRemote (Some 401%Z)) (handler refresh (loaded alice))
    = Some {| message := "Request failed"; response_status := Some 401%Z |}
  ∧ sent (handler (toggleReaction (Num 1) "LIKE")
            (dispatch (failingRemote (Some 401%Z)) (handler refresh) (loaded alice))) = [].
Proof.
  split; [reflexivity|].
  by apply (after_expiry_nothing_is_sent (failingRemote (Some 401%Z)) refresh
              (toggleReaction (Num 1) "LIKE") (loaded alice)
              {| message := "Request failed"; response_status := Some 401%Z |}).
Defined.

(** ** The life of a draft and of an edit *)

(** A comment that is accepted patches its post and empties the draft of
    that post, leaving the drafts of the other posts alone; submitting
    again straight away sends nothing, so one click cannot post the same
    comment twice. *)
Theorem accepted_comment_empties_its_draft
    (R : Remote) (st : HomeState) (u : User) (postId : JsVal) (text : string)
    (updatedPost : Post) :
  user st = Some u →
  draft postId st = Some text →
  ¬ isBlank text →
  R _ (commentOnPost postId text (user_token u)) = Resolved updatedPost →
  posts (dispatch R (handleCommentSubmit postId) st) = patch postId updatedPost (posts st)
  ∧ draft postId (dispatch R (handleCommentSubmit postId) st) = Some ""
  ∧ (∀ other, js_String other ≠ js_String postId →
       draft other (dispatch R (handleCommentSubmit postId) st) = draft other st)
  ∧ sent (handleCommentSubmit postId (dispatch R (handleCommentSubmit postId) st)) = [].
Proof.
  intros Hu Hd Hb HR.
  assert (Ht : truthy (trim text) = true).
  { destruct (truthy (trim text)) eqn:E; [done|].
    apply truthy_false, trim_empty in E. contradiction. }
  assert (E : dispatch R (handleCommentSubmit postId) st
              = filterEffect
                  (set_newComments (<[js_String postId := ""]> (newComments st))
                     (set_posts (patch postId updatedPost (posts st)) st))).
  { unfold dispatch, handleCommentSubmit. rewrite Hu, Hd, Ht. simpl. rewrite HR.
    by rewrite afterRender_same_user. }
  rewrite E. unfold handleCommentSubmit, draft. simpl.
  rewrite lookup_insert_eq. simpl. rewrite Hu. repeat split.
  intros other Ho. by rewrite lookup_insert_ne.
Qed.

Lemma accepted_comment_empties_its_draft_witness :
  draft (Num 1) (set_newComments (<[js_String (Num 1) := "hi"]> ∅) (loaded alice)) = Some "hi"
  ∧ draft (Num 1)
      (dispatch servingRemote (handleCommentSubmit (Num 1))
         (set_newComments (<[js_String (Num 1) := "hi"]> ∅) (loaded alice)))
    = Some "".
Proof.
  assert (H : draft (Num 1)
                (set_newComments (<[js_String (Num 1) := "hi"]> ∅) (loaded alice))
              = Some "hi") by (vm_compute; reflexivity).
  split; [exact H|].
  apply (accepted_comment_empties_its_draft servingRemote
           (set_newComments (<[js_String (Num 1) := "hi"]> ∅) (loaded alice))
           alice (Num 1) "hi" artPost eq_refl H).
  - intros Hb. vm_compute in Hb. discriminate.
  - reflexivity.
Defined.

(** The author's round through the edit box: after [startEditingComment]
    the Update button of the comment is rendered, and clicking it without
    typing sends the comment's own text under the user's token; once the
    service has accepted, the post is patched, the edit box is closed and
    emptied, no Update button is rendered for any comment, and no update
    can be sent before another edit is started. *)
Theorem author_edit_round
    (R : Remote) (st : HomeState) (u : User) (postId : JsVal) (comment : Comment)
    (updatedPost : Post) :
  user st = Some u →
  js_String (user_id u) = js_String (ref_id (comment_user comment)) →
  ¬ isBlank (comment_text comment) →
  R _ (updateComment postId (comment_id comment) (comment_text comment) (user_token u))
    = Resolved updatedPost →
  rendersUpdateButton comment (startEditingComment comment st) = true
  ∧ sent (clickUpdate postId comment (startEditingComment comment st))
    = [existT _ (updateComment postId (comment_id comment) (comment_text comment)
                   (user_token u))]
  ∧ posts (dispatch R (clickUpdate postId comment) (startEditingComment comment st))
    = patch postId updatedPost (posts st)
  ∧ editingCommentId
      (dispatch R (clickUpdate postId comment) (startEditingComment comment st)) = None
  ∧ (∀ c, rendersUpdateButton c
            (dispatch R (clickUpdate postId comment) (startEditingComment comment st))
          = false)
  ∧ (∀ pid cid,
       sent (handleCommentUpdate pid cid
               (dispatch R (clickUpdate postId comment) (startEditingComment comment st)))
       = []).
Proof.
  intros Hu Hid Hb HR.
  assert (Ht : truthy (trim (comment_text comment)) = true).
  { destruct (truthy (trim (comment_text comment))) eqn:E; [done|].
    apply truthy_false, trim_empty in E. contradiction. }
  assert (E1 : startEditingComment comment st
               = set_editedCommentText (comment_text comment)
                   (set_editingCommentId (Some (comment_id comment)) st)).
  { unfold startEditingComment. by rewrite Hu, bool_decide_eq_true_2. }
  rewrite E1.
  assert (E2 : ∀ st0, user st0 = Some u →
               editingCommentId st0 = Some (comment_id comment) →
               editedCommentText st0 = comment_text comment →
               clickUpdate postId comment st0
               = handleCommentUpdate postId (comment_id comment) st0).
  { intros st0 _ He _. unfold clickUpdate, rendersUpdateButton.
    by rewrite bool_decide_eq_true_2. }
  unfold dispatch. rewrite E2 by done.
  unfold handleCommentUpdate, rendersUpdateButton. simpl. rewrite Hu, Ht. simpl.
  rewrite HR. rewrite afterRender_same_user by done. simpl. rewrite Hu.
  split; [by apply bool_decide_eq_true_2|]. repeat split.
Qed.

Lemma author_edit_round_witness :
  js_String (user_id alice) = js_String (ref_id (comment_user firstComment))
  ∧ posts (dispatch servingRemote (clickUpdate (Num 1) firstComment)
             (startEditingComment firstComment (loaded alice)))
    = patch (Num 1) artPostEdited scenarioPosts.
Proof.
  split; [reflexivity|].
  apply (author_edit_round servingRemote (loaded alice) alice (Num 1) firstComment
           artPostEdited eq_refl eq_refl).
  - intros Hb. vm_compute in Hb. discriminate.
  - reflexivity.
Defined.

(** ** Invariants of the page at rest *)

Lemma applyFilters_nil (T Q : string) : applyFilters T Q [] = [].
Proof. by rewrite applyFilters_as_filter. Qed.

Lemma handler_without_user (R : Remote) (op : RemoteOp) (st : HomeState) :
  user st = None →
  user (exec R (handler op st)) = None ∧ posts (exec R (handler op st)) = posts st.
Proof.
  intros Hu.
  destruct op; unfold handler, fetchPosts, handleCommentSubmit, handleCommentUpdate,
    handleCommentDelete, handleReaction, handleFollowPost; rewrite Hu; simpl; done.
Qed.

Lemma handler_loading (R : Remote) (op : RemoteOp) (st : HomeState) :
  loading st = false → loading (exec R (handler op st)) = false.
Proof.
  intros Hl.
  destruct op; open_handler;
    unfold catch401, fetchPosts_catch, sessionExpired; repeat case_match; done.
Qed.

(** The events that are not operations write neither [posts] nor
    [loading]. *)
Lemma react_frame (R : Remote) (ev : Event) (st : HomeState) :
  match ev with
  | Invoke _ => True
  | _ => posts (exec R (react ev st)) = posts st
         ∧ loading (exec R (react ev st)) = loading st
  end.
Proof.
  destruct ev as [u | op | c | pid t | t | | t | q | o | b | | | f o]; simpl; try done.
  - unfold startEditingComment. by repeat case_match.
  - by destruct o.
Qed.

(** The renders after a change end with an empty feed whenever they end
    logged out. *)
Lemma afterRender_logged_out_empty (R : Remote) (prev st : HomeState) :
  (user prev = None → user st = None → posts st = []) →
  user (afterRender R prev st) = None →
  posts (afterRender R prev st) = [] ∧ filteredPosts (afterRender R prev st) = [].
Proof.
  intros Hinv. unfold afterRender. case_bool_decide as H1.
  - unfold filterEffect. cbn [user posts filteredPosts set_filteredPosts].
    intros Hu. rewrite Hinv by congruence. by rewrite applyFilters_nil.
  - destruct (user st) as [u|] eqn:Hst.
    + assert (Eeff : userEffect st = fetchPosts st).
      { unfold userEffect. by rewrite Hst. }
      rewrite Eeff. pose proof (fetchPosts_user R st) as Hfetch.
      remember (exec R (fetchPosts st)) as st1 eqn:Est. clear Est Eeff.
      case_bool_decide as H2.
      * unfold filterEffect. cbn [user set_filteredPosts]. congruence.
      * destruct Hfetch as [E | E]; [congruence|].
        unfold userEffect. rewrite E. simpl. intros _. by rewrite applyFilters_nil.
    + unfold userEffect. rewrite Hst. simpl. rewrite bool_decide_eq_true_2 by done.
      simpl. intros _. by rewrite applyFilters_nil.
Qed.

Lemma afterRender_loading (R : Remote) (prev st : HomeState) :
  loading st = false → loading (afterRender R prev st) = false.
Proof.
  intros Hl.
  assert (Hfetch : ∀ s, loading (exec R (fetchPosts s)) = false).
  { intros s. unfold fetchPosts. destruct (sessionToken (user s)); simpl; [|done].
    by destruct (R _ (getPosts s0)). }
  assert (Heff : ∀ s, loading s = false → loading (exec R (userEffect s)) = false).
  { intros s Hs. unfold userEffect. destruct (user s); [apply Hfetch | done]. }
  unfold afterRender. repeat case_bool_decide; simpl; auto.
Qed.

Lemma step_logged_out_empty (R : Remote) (ev : Event) (st : HomeState) :
  (user st = None → posts st = []) →
  user (step R ev st) = None →
  posts (step R ev st) = [] ∧ filteredPosts (step R ev st) = [].
Proof.
  intros Hinv. unfold step. apply afterRender_logged_out_empty.
  intros Hu _. pose proof (react_frame R ev st) as Hf.
  destruct ev as [u | op | c | pid t | t | | t | q | o | b | | | f o];
    try (rewrite (proj1 Hf); by apply Hinv).
  simpl. rewrite (proj2 (handler_without_user R op st Hu)). by apply Hinv.
Qed.

(** Whatever happens to the page, when it rests with nobody logged in it
    holds no post and shows none.  Each handler is taken to finish before
    the next event. *)
Theorem logged_out_page_holds_no_post
    (R0 : Remote) (u0 : option User) (trace : list (Remote * Event)) :
  user (run trace (mount R0 u0)) = None →
  posts (run trace (mount R0 u0)) = []
  ∧ filteredPosts (run trace (mount R0 u0)) = [].
Proof.
  assert (Hmount : user (mount R0 u0) = None →
                   posts (mount R0 u0) = [] ∧ filteredPosts (mount R0 u0) = []).
  { unfold mount. apply afterRender_logged_out_empty.
    intros Hu _. simpl in Hu. unfold userEffect. simpl. by rewrite Hu. }
  revert Hmount. generalize (mount R0 u0). induction trace as [|[R ev] trace IH];
    intros st Hst; simpl; [done|].
  apply IH. apply step_logged_out_empty. intros Hu. by apply Hst.
Qed.

Lemma logged_out_page_holds_no_post_witness :
  user (run [(servingRemote, Search "ink"); (failingRemote (Some 401%Z), Invoke refresh)]
          (mount servingRemote (Some alice))) = None
  ∧ posts (run [(servingRemote, Search "ink"); (failingRemote (Some 401%Z), Invoke refresh)]
             (mount servingRemote (Some alice))) = [].
Proof.
  assert (H : user (run [(servingRemote, Search "ink");
                         (failingRemote (Some 401%Z), Invoke refresh)]
                      (mount servingRemote (Some alice))) = None)
    by (vm_compute; reflexivity).
  split; [exact H|].
  apply (logged_out_page_holds_no_post servingRemote (Some alice)
           [(servingRemote, Search "ink"); (failingRemote (Some 401%Z), Invoke refresh)] H).
Defined.

(** The page never rests on "Loading posts...": after the first render
    and after every event [loading] is off. *)
Theorem page_never_rests_loading
    (R0 : Remote) (u0 : option User) (trace : list (Remote * Event)) :
  loading (run trace (mount R0 u0)) = false.
Proof.
  assert (Hmount : loading (mount R0 u0) = false).
  { unfold mount. apply afterRender_loading. unfold userEffect. simpl.
    destruct u0; simpl; [|done]. unfold fetchPosts.
    destruct (sessionToken _) as [tok|]; simpl; [|done].
    by destruct (R0 _ (getPosts tok)). }
  revert Hmount. generalize (mount R0 u0). induction trace as [|[R ev] trace IH];
    intros st Hst; simpl; [done|].
  apply IH. unfold step. apply afterRender_loading.
  pose proof (react_frame R ev st) as Hf.
  destruct ev as [u | op | c | pid t | t | | t | q | o | b | | | f o];
    try (rewrite (proj2 Hf); done).
  simpl. by apply handler_loading.
Qed.

(** ** Reactions on a card *)

Lemma disjoint_filters_length {A : Type} (f g : A → bool) (l : list A) :
  (∀ x, f x = true → g x = false) →
  (length (List.filter f l) + length (List.filter g l) ≤ length l)%nat.
Proof.
  intros Hfg. induction l as [|x l IH]; simpl; [done|].
  destruct (f x) eqn:Hf.
  - rewrite (Hfg x Hf). simpl. lia.
  - destruct (g x); simpl; lia.
Qed.

(** The counts of two different reaction types never add up to more than
    the total shown on the card: "Likes" plus "Loves" is at most the
    number next to the thumb. *)
Theorem reaction_counts_within_total (post : Post) (t1 t2 : string) :
  t1 ≠ t2 →
  (getReactionCount post t1 + getReactionCount post t2 ≤ totalReactions post)%nat.
Proof.
  intros Hne. unfold getReactionCount, totalReactions.
  destruct (reactions post) as [rs|]; [|done].
  apply disjoint_filters_length. intros r H1%String.eqb_eq.
  apply String.eqb_neq. congruence.
Qed.

Lemma reaction_counts_within_total_witness :
  "LIKE" ≠ "LOVE"
  ∧ (getReactionCount artPost "LIKE" + getReactionCount artPost "LOVE"
     ≤ totalReactions artPost)%nat.
Proof.
  assert (H : "LIKE" ≠ "LOVE") by discriminate.
  split; [exact H|].
  apply (reaction_counts_within_total artPost "LIKE" "LOVE" H).
Defined.

(** A reaction button is highlighted only for a type whose count on the
    card is at least one. *)
Theorem highlighted_reaction_is_counted (u : option User) (post : Post) (type : string) :
  hasUserReacted u post type = Some true →
  (1 ≤ getReactionCount post type)%nat.
Proof.
  unfold hasUserReacted, getReactionCount.
  destruct (reactions post) as [rs|]; [|done]. intros [= H].
  apply List.existsb_exists in H as [r [Hin [_ Ht]%andb_true_iff]].
  assert (Hf : List.In r (List.filter (fun r => String.eqb (reactionType r) type) rs)).
  { by apply List.filter_In. }
  destruct (List.filter _ rs); [done | simpl; lia].
Qed.

Lemma highlighted_reaction_is_counted_witness :
  hasUserReacted (Some bob) artPost "LIKE" = Some true
  ∧ (1 ≤ getReactionCount artPost "LIKE")%nat.
Proof.
  split; [reflexivity|].
  by apply (highlighted_reaction_is_counted (Some bob) artPost "LIKE").
Defined.

(** ** The Follow button *)

(** The Follow button is rendered for a logged-in user only, on a post
    whose author id is not ([!==]) the user's; so a click on it always
    sends [followUser] with the author id of the post (which is
    [undefined] on a post without author) and the user's token, and the
    branch of [handleFollowPost] that opens the login form is not taken. *)
Theorem follow_button_always_sends (post : Post) (st : HomeState) :
  rendersFollowButton post st = true →
  ∃ u, user st = Some u
       ∧ user_id u ≠ authorId post
       ∧ sent (clickFollow post st)
         = [existT _ (followUser (authorId post) (user_token u))].
Proof.
  intros H. unfold clickFollow. rewrite H.
  unfold rendersFollowButton, strictEq in H. unfold handleFollowPost.
  destruct (user st) as [u|]; [|done]. exists u. split; [done|]. split; [|done].
  apply negb_true_iff in H. by apply bool_decide_eq_false in H.
Qed.

Lemma follow_button_always_sends_witness :
  rendersFollowButton cookingPost (loaded bob) = true
  ∧ ∃ u, user (loaded bob) = Some u
         ∧ user_id u ≠ authorId cookingPost
         ∧ sent (clickFollow cookingPost (loaded bob))
           = [existT _ (followUser (authorId cookingPost) (user_token u))].
Proof.
  split; [reflexivity|].
  by apply (follow_button_always_sends cookingPost (loaded bob)).
Defined.

(** ** The login form *)

(** Submitting the login form.  The handler itself never writes [posts].
    When the call is accepted the two fields and the message are emptied
    and the context holds the user the call resolved to; if that user is
    new and carries a token, the renders that follow fetch the feed.  When
    the call is rejected the fields keep what was typed, the context keeps
    its user, the message of the error is logged, and the message shown is
    the message of the error, or "Authentication failed" when the error has
    none. *)
Theorem auth_submit_outcomes (form : AuthForm) (st : HomeState) (o : Outcome User) :
  posts (snd (handleAuthSubmit form st o)) = posts st
  ∧ match o with
    | Resolved u =>
        fst (handleAuthSubmit form st o) = {| username := ""; password := "" |}
        ∧ error (snd (handleAuthSubmit form st o)) = ""
        ∧ user (snd (handleAuthSubmit form st o)) = Some u
    | Rejected err =>
        fst (handleAuthSubmit form st o) = form
        ∧ user (snd (handleAuthSubmit form st o)) = user st
        ∧ (message err = "" →
           error (snd (handleAuthSubmit form st o)) = "Authentication failed")
        ∧ (message err ≠ "" →
           error (snd (handleAuthSubmit form st o)) = message err)
        ∧ console (snd (handleAuthSubmit form st o))
          = (console st
             ++ [("Authentication error:",
                  {| message := message err; response_status := None |})])%list
    end
  ∧ ∀ (R : Remote) (u : User) (tok : string) (postsData : list Post),
      user st ≠ Some u →
      sessionToken (Some u) = Some tok →
      R _ (getPosts tok) = Resolved postsData →
      user (step R (SubmitAuth form (Resolved u)) st) = Some u
      ∧ posts (step R (SubmitAuth form (Resolved u)) st) = postsData.
Proof.
  split; [by destruct o|]. split.
  - destruct o as [u|err]; simpl; [done|].
    repeat split; destruct (message err); done.
  - intros R u tok postsData Hnew Htok HR.
    unfold step. cbn [react exec].
    assert (Hu1 : user (snd (handleAuthSubmit form st (Resolved u))) = Some u)
      by reflexivity.
    remember (snd (handleAuthSubmit form st (Resolved u))) as st1 eqn:Est. clear Est.
    assert (Hfetch : exec R (userEffect st1)
                     = set_loading false
                         (set_filteredPosts postsData
                            (set_posts postsData (set_loading true st1)))).
    { unfold userEffect. rewrite Hu1. unfold fetchPosts. rewrite Hu1, Htok.
      cbn [exec]. by rewrite HR. }
    unfold afterRender. rewrite bool_decide_eq_false_2 by congruence.
    rewrite Hfetch. by rewrite bool_decide_eq_true_2.
Qed.

Lemma auth_submit_outcomes_witness :
  user (initialState None) ≠ Some alice
  ∧ sessionToken (Some alice) = Some "token-alice"
  ∧ posts (step servingRemote
             (SubmitAuth {| username := "alice"; password := "secret" |} (Resolved alice))
             (initialState None))
    = scenarioPosts.
Proof.
  assert (H1 : user (initialState None) ≠ Some alice) by discriminate.
  assert (H2 : sessionToken (Some alice) = Some "token-alice") by reflexivity.
  split; [exact H1|]. split; [exact H2|].
  destruct (auth_submit_outcomes {| username := "alice"; password := "secret" |}
              (initialState None) (Resolved alice)) as (_ & _ & H).
  by destruct (H servingRemote alice "token-alice" scenarioPosts H1 H2 eq_refl).
Defined.

(** ** Sharing *)

(** The title put in a shared message: "Check out this post!" when no
    post of the feed has the id, or when the first post with the id has no
    title or an empty one; the title of the first post with the id
    otherwise.  It is never empty. *)
Theorem shareTitle_is_never_empty (ps : list Post) (postId : JsVal) :
  shareTitle ps postId ≠ ""
  ∧ ((∀ p, p ∈ ps → post_id p ≠ postId) →
     shareTitle ps postId = "Check out this post!")
  ∧ (∀ before p after,
       ps = (before ++ p :: after)%list →
       (∀ q, q ∈ before → post_id q ≠ postId) →
       post_id p = postId →
       (title p = None ∨ title p = Some "" →
        shareTitle ps postId = "Check out this post!")
       ∧ (∀ t, title p = Some t → t ≠ "" → shareTitle ps postId = t)).
Proof.
  assert (Hskip : ∀ before rest,
            (∀ q, q ∈ before → post_id q ≠ postId) →
            List.find (fun p => strictEq (post_id p) postId) (before ++ rest)%list
            = List.find (fun p => strictEq (post_id p) postId) rest).
  { intros before rest. induction before as [|q before IH]; intros Hb; [done|].
    simpl. unfold strictEq at 1.
    rewrite bool_decide_eq_false_2 by (apply Hb; left).
    apply IH. intros q' Hq'. apply Hb. by right. }
  unfold shareTitle. split; [|split].
  - destruct (List.find _ ps) as [p|]; [|done].
    destruct (title p) as [[|c t]|]; done.
  - intros Habs. rewrite <- (app_nil_r ps), Hskip by done. done.
  - intros before p after -> Hb Hid. rewrite Hskip by done. simpl.
    unfold strictEq. rewrite bool_decide_eq_true_2 by done. split.
    + by intros [-> | ->].
    + intros t -> Ht. by destruct t.
Qed.

Lemma shareTitle_is_never_empty_witness :
  shareTitle scenarioPosts (Num 2) = "Bread"
  ∧ shareTitle (untaggedPost :: scenarioPosts) (Num 7) = "Check out this post!".
Proof.
  destruct (shareTitle_is_never_empty scenarioPosts (Num 2)) as (_ & _ & H).
  destruct (shareTitle_is_never_empty (untaggedPost :: scenarioPosts) (Num 7))
    as (_ & Habs & _).
  split.
  - apply (H [artPost] cookingPost [] eq_refl).
    + intros q Hq. apply list_elem_of_In in Hq. destruct Hq as [<- | []]. discriminate.
    + reflexivity.
    + reflexivity.
    + discriminate.
  - apply Habs. intros q Hq. apply list_elem_of_In in Hq.
    destruct Hq as [<- | [<- | [<- | []]]]; discriminate.
Defined.

(** ** Updates for a post that is not in the feed *)

(** When no post of the feed has the given id, the three local updates
    change nothing: the post returned for a comment, an edit or a reaction
    is dropped, the followers are dropped, and the delete goes through
    without touching any post. *)
Theorem update_for_absent_post_changes_nothing
    (ps : list Post) (postId commentId : JsVal) (updatedPost : Post)
    (fs : option (list JsVal)) :
  (∀ p, p ∈ ps → post_id p ≠ postId) →
  patch postId updatedPost ps = ps
  ∧ patchFollowers postId fs ps = ps
  ∧ removeComment postId commentId ps = Some ps.
Proof.
  intros Habs. unfold patch, patchFollowers, removeComment, strictEq.
  induction ps as [|q ps IH]; [done|].
  assert (Hq : post_id q ≠ postId) by (apply Habs; left).
  destruct IH as (IH1 & IH2 & IH3); [intros p Hp; apply Habs; by right|].
  simpl. rewrite bool_decide_eq_false_2 by done.
  rewrite IH1, IH2. split; [done|]. split; [done|].
  cbn [mapM] in *. by rewrite IH3.
Qed.

Lemma update_for_absent_post_changes_nothing_witness :
  (∀ p, p ∈ scenarioPosts → post_id p ≠ Num 7)
  ∧ patch (Num 7) untaggedPost scenarioPosts = scenarioPosts.
Proof.
  assert (H : ∀ p, p ∈ scenarioPosts → post_id p ≠ Num 7).
  { intros p Hp. apply list_elem_of_In in Hp.
    destruct Hp as [<- | [<- | []]]; discriminate. }
  split; [exact H|].
  apply (update_for_absent_post_changes_nothing scenarioPosts (Num 7) (Num 10)
           untaggedPost None H).
Defined.
